(** * Voting smart contract (contract.py): model and verification

    The contract is an Algorand ARC4 application written in Algorand Python.
    Its global state is the fourteen fields of class [Voting]; its local
    state is one UInt64 key per account ([localState]).  Every method call is
    one ledger transaction: it either runs to completion or is rejected with
    all of its effects discarded.

    The handlers are embedded in a small state-and-error monad, one monadic
    definition per method, statement by statement. *)

From Stdlib Require Import ZArith Lia.
From stdpp Require Import base gmap sets strings.

Local Open Scope Z_scope.

(** ** Data model *)

(** Account addresses.  Only equality of addresses matters to the contract. *)
Definition Account : Type := N.

(** Largest value of the AVM type UInt64. *)
Definition UInt64_MAX : Z := 2 ^ 64 - 1.

Definition is_uint64 (x : Z) : Prop := 0 <= x <= UInt64_MAX.

(** The contract state: the global fields of [Voting] in declaration order,
    followed by the per-account storage.  [optedIn] is the set of accounts
    whose local storage is allocated; [localState] holds the key written by
    [vote] for the accounts that have one. *)
Record State : Type := mkState {
  title : string;
  description : string;
  noOfOptions : Z;
  option1 : string;
  option2 : string;
  option3 : string;
  option4 : string;
  option1Votes : Z;
  option2Votes : Z;
  option3Votes : Z;
  option4Votes : Z;
  startsAt : Z;
  endsAt : Z;
  vote_status : Z;
  optedIn : gset Account;
  localState : gmap Account Z
}.

(** What the ledger supplies with each call: [Txn.sender] and
    [Global.latest_timestamp]. *)
Record Env : Type := mkEnv {
  Txn_sender : Account;
  Global_latest_timestamp : Z
}.

(** Reasons for which a call is rejected.  The first seven are the failed
    assertions of the source, in the order of the source; [NotOptedIn] is a
    local-state access for an account without storage, [Overflow] a UInt64
    addition whose result does not fit, [ProgramExit] is [op.exit(0)]. *)
Inductive Error : Type :=
  | AlreadyCreated
  | InvalidOptionCount
  | InvalidDeadline
  | VotingEnded
  | VotingNotStarted
  | InvalidOption
  | AlreadyVoted
  | NotOptedIn
  | Overflow
  | ProgramExit.

Inductive Result (A : Type) : Type :=
  | Ok (a : A)
  | Err (e : Error).
Arguments Ok {A} a.
Arguments Err {A} e.

(** ** The call monad: state passing with rejection *)

Definition M (A : Type) : Type := State -> Result (A * State).

#[global] Instance M_ret : MRet M := fun A a s => Ok (a, s).

#[global] Instance M_bind : MBind M := fun A B f m s =>
  match m s with
  | Ok (a, s') => f a s'
  | Err e => Err e
  end.

Definition get : M State := fun s => Ok (s, s).

Definition modify (f : State -> State) : M unit := fun s => Ok (tt, f s).

Definition fail {A : Type} (e : Error) : M A := fun _ => Err e.

(** [assert cond, msg] of the source. *)
Definition assert_ (cond : bool) (e : Error) : M unit :=
  if cond then mret tt else fail e.

(** ** Field assignments *)

Definition set_title (v : string) (s : State) : State :=
  mkState v (description s) (noOfOptions s) (option1 s) (option2 s)
    (option3 s) (option4 s) (option1Votes s) (option2Votes s)
    (option3Votes s) (option4Votes s) (startsAt s) (endsAt s)
    (vote_status s) (optedIn s) (localState s).

Definition set_description (v : string) (s : State) : State :=
  mkState (title s) v (noOfOptions s) (option1 s) (option2 s)
    (option3 s) (option4 s) (option1Votes s) (option2Votes s)
    (option3Votes s) (option4Votes s) (startsAt s) (endsAt s)
    (vote_status s) (optedIn s) (localState s).

Definition set_noOfOptions (v : Z) (s : State) : State :=
  mkState (title s) (description s) v (option1 s) (option2 s)
    (option3 s) (option4 s) (option1Votes s) (option2Votes s)
    (option3Votes s) (option4Votes s) (startsAt s) (endsAt s)
    (vote_status s) (optedIn s) (localState s).

Definition set_option1 (v : string) (s : State) : State :=
  mkState (title s) (description s) (noOfOptions s) v (option2 s)
    (option3 s) (option4 s) (option1Votes s) (option2Votes s)
    (option3Votes s) (option4Votes s) (startsAt s) (endsAt s)
    (vote_status s) (optedIn s) (localState s).

Definition set_option2 (v : string) (s : State) : State :=
  mkState (title s) (description s) (noOfOptions s) (option1 s) v
    (option3 s) (option4 s) (option1Votes s) (option2Votes s)
    (option3Votes s) (option4Votes s) (startsAt s) (endsAt s)
    (vote_status s) (optedIn s) (localState s).

Definition set_option3 (v : string) (s : State) : State :=
  mkState (title s) (description s) (noOfOptions s) (option1 s) (option2 s)
    v (option4 s) (option1Votes s) (option2Votes s)
    (option3Votes s) (option4Votes s) (startsAt s) (endsAt s)
    (vote_status s) (optedIn s) (localState s).

Definition set_option4 (v : string) (s : State) : State :=
  mkState (title s) (description s) (noOfOptions s) (option1 s) (option2 s)
    (option3 s) v (option1Votes s) (option2Votes s)
    (option3Votes s) (option4Votes s) (startsAt s) (endsAt s)
    (vote_status s) (optedIn s) (localState s).

Definition set_option1Votes (v : Z) (s : State) : State :=
  mkState (title s) (description s) (noOfOptions s) (option1 s) (option2 s)
    (option3 s) (option4 s) v (option2Votes s)
    (option3Votes s) (option4Votes s) (startsAt s) (endsAt s)
    (vote_status s) (optedIn s) (localState s).

Definition set_option2Votes (v : Z) (s : State) : State :=
  mkState (title s) (description s) (noOfOptions s) (option1 s) (option2 s)
    (option3 s) (option4 s) (option1Votes s) v
    (option3Votes s) (option4Votes s) (startsAt s) (endsAt s)
    (vote_status s) (optedIn s) (localState s).

Definition set_option3Votes (v : Z) (s : State) : State :=
  mkState (title s) (description s) (noOfOptions s) (option1 s) (option2 s)
    (option3 s) (option4 s) (option1Votes s) (option2Votes s)
    v (option4Votes s) (startsAt s) (endsAt s)
    (vote_status s) (optedIn s) (localState s).

Definition set_option4Votes (v : Z) (s : State) : State :=
  mkState (title s) (description s) (noOfOptions s) (option1 s) (option2 s)
    (option3 s) (option4 s) (option1Votes s) (option2Votes s)
    (option3Votes s) v (startsAt s) (endsAt s)
    (vote_status s) (optedIn s) (localState s).

Definition set_startsAt (v : Z) (s : State) : State :=
  mkState (title s) (description s) (noOfOptions s) (option1 s) (option2 s)
    (option3 s) (option4 s) (option1Votes s) (option2Votes s)
    (option3Votes s) (option4Votes s) v (endsAt s)
    (vote_status s) (optedIn s) (localState s).

Definition set_endsAt (v : Z) (s : State) : State :=
  mkState (title s) (description s) (noOfOptions s) (option1 s) (option2 s)
    (option3 s) (option4 s) (option1Votes s) (option2Votes s)
    (option3Votes s) (option4Votes s) (startsAt s) v
    (vote_status s) (optedIn s) (localState s).

Definition set_vote_status (v : Z) (s : State) : State :=
  mkState (title s) (description s) (noOfOptions s) (option1 s) (option2 s)
    (option3 s) (option4 s) (option1Votes s) (option2Votes s)
    (option3Votes s) (option4Votes s) (startsAt s) (endsAt s)
    v (optedIn s) (localState s).

Definition set_optedIn (v : gset Account) (s : State) : State :=
  mkState (title s) (description s) (noOfOptions s) (option1 s) (option2 s)
    (option3 s) (option4 s) (option1Votes s) (option2Votes s)
    (option3Votes s) (option4Votes s) (startsAt s) (endsAt s)
    (vote_status s) v (localState s).

Definition set_localState (v : gmap Account Z) (s : State) : State :=
  mkState (title s) (description s) (noOfOptions s) (option1 s) (option2 s)
    (option3 s) (option4 s) (option1Votes s) (option2Votes s)
    (option3Votes s) (option4Votes s) (startsAt s) (endsAt s)
    (vote_status s) (optedIn s) v.

(** ** Primitives of the platform used by the source *)

(** [self.localState.maybe(account)]: the stored value and whether the key
    exists (value 0 when it does not).  Reading the local state of an account
    that has not opted in rejects the call. *)
Definition localState_maybe (account : Account) : M (Z * bool) := fun s =>
  if decide (account ∈ optedIn s) then
    match localState s !! account with
    | Some v => Ok ((v, true), s)
    | None => Ok ((0, false), s)
    end
  else Err NotOptedIn.

(** [self.localState[account] = v].  Writing needs allocated storage too. *)
Definition localState_setitem (account : Account) (v : Z) : M unit := fun s =>
  if decide (account ∈ optedIn s)
  then Ok (tt, set_localState (<[account := v]> (localState s)) s)
  else Err NotOptedIn.

(** UInt64 addition: the AVM rejects the call when the sum does not fit in
    64 bits; there is no wrap-around. *)
Definition uint64_add (x y : Z) : M Z :=
  if x + y <=? UInt64_MAX then mret (x + y) else fail Overflow.

(** [op.exit(code)]: the program stops at once; code 0 rejects the call.  A
    non-zero code approves it, which in the tail position where the source
    calls [op.exit] is the same as returning. *)
Definition op_exit (code : Z) : M unit :=
  if code =? 0 then fail ProgramExit else mret tt.

(** ** The contract *)

(** [Voting.__init__]: the state right after deployment. *)
Definition __init__ : State :=
  mkState "" "" 0 "" "" "" "" 0 0 0 0 0 0 0 ∅ ∅.

(** [Voting.create_vote]. *)
Definition create_vote (env : Env) (title description : string)
    (noOfOptions : Z) (option1 option2 option3 option4 : string)
    (endsAt : Z) : M unit :=
  self ← get;
  assert_ (vote_status self =? 0) AlreadyCreated;;
  assert_ ((noOfOptions >=? 2) && (noOfOptions <=? 4)) InvalidOptionCount;;
  assert_ (Global_latest_timestamp env <? endsAt) InvalidDeadline;;
  modify (set_title title);;
  modify (set_description description);;
  modify (set_noOfOptions noOfOptions);;
  modify (set_option1 option1);;
  modify (set_option2 option2);;
  modify (set_option3 option3);;
  modify (set_option4 option4);;
  modify (set_option1Votes 0);;
  modify (set_option2Votes 0);;
  modify (set_option3Votes 0);;
  modify (set_option4Votes 0);;
  modify (set_startsAt (Global_latest_timestamp env));;
  modify (set_endsAt endsAt);;
  modify (set_vote_status 1).

(** [self.optionKVotes += 1], for K = 1..4. *)
Definition incr_option1Votes : M unit :=
  self ← get; v ← uint64_add (option1Votes self) 1; modify (set_option1Votes v).
Definition incr_option2Votes : M unit :=
  self ← get; v ← uint64_add (option2Votes self) 1; modify (set_option2Votes v).
Definition incr_option3Votes : M unit :=
  self ← get; v ← uint64_add (option3Votes self) 1; modify (set_option3Votes v).
Definition incr_option4Votes : M unit :=
  self ← get; v ← uint64_add (option4Votes self) 1; modify (set_option4Votes v).

(** [Voting.vote]. *)
Definition vote (env : Env) (option : Z) : M unit :=
  self ← get;
  assert_ (Global_latest_timestamp env <? endsAt self) VotingEnded;;
  assert_ (Global_latest_timestamp env >? startsAt self) VotingNotStarted;;
  assert_ ((option >=? 1) && (option <=? noOfOptions self)) InvalidOption;;
  '(val, exist_) ← localState_maybe (Txn_sender env);
  assert_ (negb exist_) AlreadyVoted;;
  localState_setitem (Txn_sender env) option;;
  if option =? 1 then incr_option1Votes
  else if option =? 2 then incr_option2Votes
  else if option =? 3 then incr_option3Votes
  else if option =? 4 then incr_option4Votes
  else op_exit 0.

(** [Voting.opt_in]: the body is [pass]. *)
Definition opt_in (env : Env) : M unit := mret tt.

(** Modelled from the spec: the allocation of the caller's local storage,
    which the ledger performs for a call with the OptIn action and which is
    not part of contract.py.  Following the specification of [opt_in] it
    allocates the slot if it is absent and does nothing otherwise; a freshly
    allocated slot holds no key. *)
Definition ledger_opt_in (account : Account) : M unit :=
  modify (fun s => set_optedIn ({[account]} ∪ optedIn s) s).

(** ** Calls and reachable states *)

Inductive Call : Type :=
  | CreateVote (title description : string) (noOfOptions : Z)
      (option1 option2 option3 option4 : string) (endsAt : Z)
  | Vote (option : Z)
  | OptIn.

(** Routing of a call to its handler.  [opt_in] is the one method that
    accepts the OptIn action, whose allocation precedes the handler. *)
Definition dispatch (env : Env) (c : Call) : M unit :=
  match c with
  | CreateVote t d n o1 o2 o3 o4 e => create_vote env t d n o1 o2 o3 o4 e
  | Vote o => vote env o
  | OptIn => ledger_opt_in (Txn_sender env);; opt_in env
  end.

(** One transaction: a rejected call leaves the state as it was. *)
Definition run (env : Env) (c : Call) (s : State) : State :=
  match dispatch env c s with
  | Ok (_, s') => s'
  | Err _ => s
  end.

(** States that arise from the deployed contract by any sequence of calls,
    from any senders, at any times. *)
Inductive reachable : State -> Prop :=
  | reachable_init : reachable __init__
  | reachable_step env c s : reachable s -> reachable (run env c s).

(** [steps s s']: [s'] arises from [s] by a sequence of calls. *)
Inductive steps (s : State) : State -> Prop :=
  | steps_refl : steps s s
  | steps_step env c s' : steps s s' -> steps s (run env c s').

(** Reachability along a clock that never goes back: [reachable_at now s]
    holds when [s] arises by calls whose timestamps are UInt64 values in
    non-decreasing order, the latest being [now]. *)
Inductive reachable_at : Z -> State -> Prop :=
  | reachable_at_init now : is_uint64 now -> reachable_at now __init__
  | reachable_at_step now env c s :
      reachable_at now s ->
      now <= Global_latest_timestamp env ->
      is_uint64 (Global_latest_timestamp env) ->
      reachable_at (Global_latest_timestamp env) (run env c s).

(** The tally at position [k]. *)
Definition tally (k : Z) (s : State) : Z :=
  if k =? 1 then option1Votes s
  else if k =? 2 then option2Votes s
  else if k =? 3 then option3Votes s
  else if k =? 4 then option4Votes s
  else 0.

Definition sum_tallies (s : State) : Z :=
  option1Votes s + option2Votes s + option3Votes s + option4Votes s.

(** Number of accounts whose local-state key is present. *)
Definition voters (s : State) : Z := Z.of_nat (size (localState s)).

(** ** Notions used in the statements *)

(** The state a successful [vote] leaves behind, before the tally changes. *)
Definition recorded (env : Env) (option : Z) (s : State) : State :=
  set_localState (<[Txn_sender env := option]> (localState s)) s.

(** The poll metadata: every global field except the four tallies. *)
Definition metadata (s : State) :=
  (title s, description s, noOfOptions s,
   (option1 s, option2 s, option3 s, option4 s),
   startsAt s, endsAt s, vote_status s).

(** [hasVoted] of the specification's VoterRecord: the account's key is
    present in the local state. *)
Definition hasVoted (s : State) (a : Account) : bool :=
  match localState s !! a with
  | Some _ => true
  | None => false
  end.

(** The opted-in accounts that have voted. *)
Definition voted_accounts (s : State) : gset Account :=
  filter (fun a => hasVoted s a = true) (optedIn s).

(** The error of a [vote] call by an account whose key is present: the
    first of the four assertions that fails. *)
Definition second_vote_error (env : Env) (o : Z) (s : State) : Error :=
  if Global_latest_timestamp env <? endsAt s then
    if Global_latest_timestamp env >? startsAt s then
      if (o >=? 1) && (o <=? noOfOptions s) then AlreadyVoted
      else InvalidOption
    else VotingNotStarted
  else VotingEnded.

(** Before creation the globals are as deployed and nobody has voted. *)
Definition not_created (s : State) : Prop :=
  noOfOptions s = 0 /\ startsAt s = 0 /\ endsAt s = 0
  /\ sum_tallies s = 0 /\ localState s = ∅.

(** After creation the option count is in range and the window is not
    empty. *)
Definition created (s : State) : Prop :=
  2 <= noOfOptions s <= 4 /\ startsAt s < endsAt s.

Record invariant (s : State) : Prop := mkInvariant {
  inv_status : vote_status s = 0 /\ not_created s
               \/ vote_status s = 1 /\ created s;
  inv_conservation : sum_tallies s = voters s;
  inv_storage : dom (localState s) ⊆ optedIn s
}.

(** ** Scenario A of the specification *)

(** The voter of the scenario. *)
Definition X : Account := 7%N.

(** At time 1000 account 1 creates a poll with the options Yes and No that
    closes at 1100; [X] opts in at 1010 and votes for option 1 at 1050. *)
Definition scenarioA_created : State :=
  run (mkEnv 1%N 1000) (CreateVote "Poll" "" 2 "Yes" "No" "" "" 1100) __init__.

Definition scenarioA_opted : State := run (mkEnv X 1010) OptIn scenarioA_created.

Definition scenarioA_voted : State :=
  run (mkEnv X 1050) (Vote 1) scenarioA_opted.

(** ** A poll whose first tally is full *)

(** A poll that opens at time 0 and closes at time 2, with two options. *)
Definition poll0 : State :=
  run (mkEnv 0%N 0) (CreateVote "" "" 2 "" "" "" "" 2) __init__.

(** Account 0 opts in at time 1 and does not vote. *)
Definition lobby : State := run (mkEnv 0%N 1) OptIn poll0.

(** [crowd n]: after the lobby, accounts 1..n in turn opt in and vote for
    option 1, all at time 1. *)
Fixpoint crowd (n : nat) : State :=
  match n with
  | O => lobby
  | S k =>
      run (mkEnv (N.of_nat (S k)) 1) (Vote 1)
        (run (mkEnv (N.of_nat (S k)) 1) OptIn (crowd k))
  end.

(** The crowd that fills the first tally up to the largest UInt64. *)
Definition full_house : State := crowd (Z.to_nat UInt64_MAX).

(** ** Notions used in the further properties *)

(** Number of accounts whose recorded choice is option [k]. *)
Definition votes_for (k : Z) (s : State) : nat :=
  size (filter (fun kv : Account * Z => kv.2 = k) (localState s)).

(** [steps_from t0 s s']: [s'] arises from [s] by a sequence of calls whose
    timestamps are all at least [t0]. *)
Inductive steps_from (t0 : Z) (s : State) : State -> Prop :=
  | steps_from_refl : steps_from t0 s s
  | steps_from_step env c s' :
      steps_from t0 s s' ->
      t0 <= Global_latest_timestamp env ->
      steps_from t0 s (run env c s').

(** The conditions under which the source lets a [vote] call through: the
    four assertions, allocated storage, and room in the chosen tally. *)
Definition vote_accepted_when (env : Env) (o : Z) (s : State) : Prop :=
  startsAt s < Global_latest_timestamp env < endsAt s
  /\ 1 <= o <= noOfOptions s
  /\ o <= 4
  /\ Txn_sender env ∈ optedIn s
  /\ localState s !! Txn_sender env = None
  /\ tally o s < UInt64_MAX.

(** What the reachable states keep about the recorded choices: each tally
    counts the keys holding its option, every key holds a valid option, the
    tallies fit in UInt64, and before creation the metadata is as deployed. *)
Record ballot_invariant (s : State) : Prop := mkBallotInvariant {
  bi_count : forall k, 1 <= k <= 4 -> tally k s = Z.of_nat (votes_for k s);
  bi_range : forall a v, localState s !! a = Some v -> 1 <= v <= noOfOptions s;
  bi_bound : forall k, tally k s <= UInt64_MAX;
  bi_fresh : vote_status s = 0 -> metadata s = metadata __init__
}.

(** The state an accepted [vote] leaves: the caller's key holds the option
    and the tally of that option is one higher. *)
Definition voted (env : Env) (o : Z) (s : State) : State :=
  mkState (title s) (description s) (noOfOptions s) (option1 s) (option2 s)
    (option3 s) (option4 s)
    (option1Votes s + (if o =? 1 then 1 else 0))
    (option2Votes s + (if o =? 2 then 1 else 0))
    (option3Votes s + (if o =? 3 then 1 else 0))
    (option4Votes s + (if o =? 4 then 1 else 0))
    (startsAt s) (endsAt s) (vote_status s) (optedIn s)
    (<[Txn_sender env := o]> (localState s)).

(** A second voter. *)
Definition Y : Account := 9%N.

(** * Properties *)

(** Scenario A: the tallies are [1, 0] after the vote of [X], and a second
    vote of [X] at 1060 is rejected with [AlreadyVoted]. *)
Example scenarioA_tallies :
  (option1Votes scenarioA_voted, option2Votes scenarioA_voted) = (1, 0)
  /\ localState scenarioA_voted !! X = Some 1
  /\ vote (mkEnv X 1060) 1 scenarioA_voted = Err AlreadyVoted.
Proof. vm_compute. auto. Qed.

(** ** The handlers in closed form *)

Lemma create_vote_unfold env t d n o1 o2 o3 o4 e s :
  create_vote env t d n o1 o2 o3 o4 e s =
  if vote_status s =? 0 then
    if (n >=? 2) && (n <=? 4) then
      if Global_latest_timestamp env <? e then
        Ok (tt, mkState t d n o1 o2 o3 o4 0 0 0 0
                  (Global_latest_timestamp env) e 1 (optedIn s) (localState s))
      else Err InvalidDeadline
    else Err InvalidOptionCount
  else Err AlreadyCreated.
Proof.
  unfold create_vote, mbind, M_bind, get, assert_, mret, M_ret, fail, modify.
  destruct (vote_status s =? 0); [|reflexivity].
  destruct ((n >=? 2) && (n <=? 4)); [|reflexivity].
  destruct (Global_latest_timestamp env <? e); reflexivity.
Qed.

Lemma vote_unfold env o s :
  vote env o s =
  if Global_latest_timestamp env <? endsAt s then
    if Global_latest_timestamp env >? startsAt s then
      if (o >=? 1) && (o <=? noOfOptions s) then
        if decide (Txn_sender env ∈ optedIn s) then
          match localState s !! Txn_sender env with
          | Some _ => Err AlreadyVoted
          | None =>
              if o =? 1 then
                if option1Votes s + 1 <=? UInt64_MAX
                then Ok (tt, set_option1Votes (option1Votes s + 1) (recorded env o s))
                else Err Overflow
              else if o =? 2 then
                if option2Votes s + 1 <=? UInt64_MAX
                then Ok (tt, set_option2Votes (option2Votes s + 1) (recorded env o s))
                else Err Overflow
              else if o =? 3 then
                if option3Votes s + 1 <=? UInt64_MAX
                then Ok (tt, set_option3Votes (option3Votes s + 1) (recorded env o s))
                else Err Overflow
              else if o =? 4 then
                if option4Votes s + 1 <=? UInt64_MAX
                then Ok (tt, set_option4Votes (option4Votes s + 1) (recorded env o s))
                else Err Overflow
              else Err ProgramExit
          end
        else Err NotOptedIn
      else Err InvalidOption
    else Err VotingNotStarted
  else Err VotingEnded.
Proof.
  unfold vote, mbind, M_bind, get, assert_, mret, M_ret, fail.
  destruct (Global_latest_timestamp env <? endsAt s); [|reflexivity].
  destruct (Global_latest_timestamp env >? startsAt s); [|reflexivity].
  destruct ((o >=? 1) && (o <=? noOfOptions s)); [|reflexivity].
  unfold localState_maybe, localState_setitem.
  destruct (decide (Txn_sender env ∈ optedIn s)) as [Hin|Hin]; [|reflexivity].
  destruct (localState s !! Txn_sender env) eqn:Hl; simpl; [reflexivity|].
  destruct (decide (Txn_sender env ∈ optedIn s)); [|contradiction].
  unfold incr_option1Votes, incr_option2Votes, incr_option3Votes,
    incr_option4Votes, op_exit, uint64_add, recorded,
    mbind, M_bind, get, modify, mret, M_ret, fail; simpl.
  destruct (o =? 1); [destruct (_ <=? _); reflexivity|].
  destruct (o =? 2); [destruct (_ <=? _); reflexivity|].
  destruct (o =? 3); [destruct (_ <=? _); reflexivity|].
  destruct (o =? 4); [destruct (_ <=? _); reflexivity|].
  reflexivity.
Qed.

Lemma opt_in_call_unfold env s :
  dispatch env OptIn s =
  Ok (tt, set_optedIn ({[Txn_sender env]} ∪ optedIn s) s).
Proof. reflexivity. Qed.

(** ** Invariants of the reachable states *)

Lemma invariant_init : invariant __init__.
Proof.
  split.
  - left. repeat split; reflexivity.
  - reflexivity.
  - set_solver.
Qed.

(** Closes the side conditions of an accepted [vote] and leaves its effect
    on the tallies. *)
Ltac vote_accepted :=
  right; repeat (split; [first [assumption | reflexivity | lia]|]);
  eexists; repeat (split; [first [reflexivity | tauto | assumption]|]); simpl.

(** Case analysis on the outcome of a [vote] call: it is rejected, or it
    succeeds with the caller's key absent before, written after, and exactly
    the chosen tally incremented within UInt64. *)
Lemma vote_cases env o s :
  (exists e, vote env o s = Err e)
  \/ (Global_latest_timestamp env < endsAt s
      /\ startsAt s < Global_latest_timestamp env
      /\ 1 <= o <= noOfOptions s
      /\ Txn_sender env ∈ optedIn s
      /\ localState s !! Txn_sender env = None
      /\ exists s',
           vote env o s = Ok (tt, s')
           /\ localState s' = <[Txn_sender env := o]> (localState s)
           /\ optedIn s' = optedIn s
           /\ title s' = title s /\ description s' = description s
           /\ noOfOptions s' = noOfOptions s
           /\ option1 s' = option1 s /\ option2 s' = option2 s
           /\ option3 s' = option3 s /\ option4 s' = option4 s
           /\ startsAt s' = startsAt s /\ endsAt s' = endsAt s
           /\ vote_status s' = vote_status s
           /\ (o = 1 \/ o = 2 \/ o = 3 \/ o = 4)
           /\ tally o s + 1 <= UInt64_MAX
           /\ forall k, tally k s' =
                if (k =? o) then tally k s + 1 else tally k s).
Proof.
  rewrite vote_unfold.
  destruct (Z.ltb_spec (Global_latest_timestamp env) (endsAt s)); [|eauto].
  destruct (Z.gtb_spec (Global_latest_timestamp env) (startsAt s)); [|eauto].
  destruct (Z.geb_spec o 1); simpl; [|eauto].
  destruct (Z.leb_spec o (noOfOptions s)); simpl; [|eauto].
  destruct (decide (Txn_sender env ∈ optedIn s)); [|eauto].
  destruct (localState s !! Txn_sender env) eqn:Hl; [eauto|].
  destruct (Z.eqb_spec o 1) as [-> | ].
  { destruct (Z.leb_spec (option1Votes s + 1) UInt64_MAX); [|eauto].
    vote_accepted.
    intros k; unfold tally; simpl.
    destruct (k =? 1); [reflexivity|].
    repeat (destruct (_ =? _); try reflexivity). }
  destruct (Z.eqb_spec o 2) as [->|].
  { destruct (Z.leb_spec (option2Votes s + 1) UInt64_MAX); [|eauto].
    vote_accepted.
    intros k; unfold tally; simpl.
    destruct (Z.eqb_spec k 1); [subst; reflexivity|].
    destruct (k =? 2); [reflexivity|].
    repeat (destruct (_ =? _); try reflexivity). }
  destruct (Z.eqb_spec o 3) as [->|].
  { destruct (Z.leb_spec (option3Votes s + 1) UInt64_MAX); [|eauto].
    vote_accepted.
    intros k; unfold tally; simpl.
    destruct (Z.eqb_spec k 1); [subst; reflexivity|].
    destruct (Z.eqb_spec k 2); [subst; reflexivity|].
    destruct (k =? 3); [reflexivity|].
    repeat (destruct (_ =? _); try reflexivity). }
  destruct (Z.eqb_spec o 4) as [->|].
  { destruct (Z.leb_spec (option4Votes s + 1) UInt64_MAX); [|eauto].
    vote_accepted.
    intros k; unfold tally; simpl.
    destruct (Z.eqb_spec k 1); [subst; reflexivity|].
    destruct (Z.eqb_spec k 2); [subst; reflexivity|].
    destruct (Z.eqb_spec k 3); [subst; reflexivity|].
    destruct (k =? 4); reflexivity. }
  eauto.
Qed.

Lemma sum_tallies_tally s :
  sum_tallies s = tally 1 s + tally 2 s + tally 3 s + tally 4 s.
Proof. reflexivity. Qed.

(** A successful vote adds one to the sum of the tallies. *)
Lemma sum_tallies_vote o s s' :
  (o = 1 \/ o = 2 \/ o = 3 \/ o = 4) ->
  (forall k, tally k s' = if (k =? o) then tally k s + 1 else tally k s) ->
  sum_tallies s' = sum_tallies s + 1.
Proof.
  intros Ho Hk. rewrite !sum_tallies_tally, !Hk.
  destruct Ho as [-> | [-> | [-> | ->] ] ]; simpl; lia.
Qed.

Lemma create_vote_invariant env t d n o1 o2 o3 o4 e s s' :
  invariant s ->
  create_vote env t d n o1 o2 o3 o4 e s = Ok (tt, s') ->
  invariant s'.
Proof.
  intros [Hst Hsum Hdom]. rewrite create_vote_unfold.
  destruct (Z.eqb_spec (vote_status s) 0) as [H0|]; [|discriminate].
  destruct (Z.geb_spec n 2); simpl; [|discriminate].
  destruct (Z.leb_spec n 4); simpl; [|discriminate].
  destruct (Z.ltb_spec (Global_latest_timestamp env) e); [|discriminate].
  intros [= <-].
  destruct Hst as [[_ (_ & _ & _ & _ & Hempty)]|[Hact _]]; [|lia].
  split; simpl.
  - right. split; [reflexivity|]. split; simpl; lia.
  - unfold sum_tallies, voters; simpl. rewrite Hempty, map_size_empty. reflexivity.
  - exact Hdom.
Qed.

Lemma vote_invariant env o s s' :
  invariant s -> vote env o s = Ok (tt, s') -> invariant s'.
Proof.
  intros [Hst Hsum Hdom] Hv.
  destruct (vote_cases env o s) as [[e He]|Hok]; [congruence|].
  destruct Hok as (Hend & Hstart & Ho & Hin & Hnone & s1 & Hs1 & Hloc & Hopt
                   & _ & _ & Hn & _ & _ & _ & _ & Hsa & Hea & Hvs & Ho4 & _ & Hk).
  assert (s1 = s') as -> by congruence.
  split.
  - destruct Hst as [[_ (Hn0 & _)]|[Hact [Hc1 Hc2]]]; [lia|].
    right. split; [congruence|]. split; [rewrite Hn|rewrite Hsa, Hea]; assumption.
  - rewrite (sum_tallies_vote o s s' Ho4 Hk), Hsum.
    unfold voters. rewrite Hloc, map_size_insert_None by exact Hnone. lia.
  - rewrite Hloc, Hopt, dom_insert_L. apply union_least; [apply singleton_subseteq_l; exact Hin | exact Hdom].
Qed.

Lemma opt_in_invariant env s :
  invariant s -> invariant (set_optedIn ({[Txn_sender env]} ∪ optedIn s) s).
Proof.
  intros [Hst Hsum Hdom]. split; simpl.
  - exact Hst.
  - exact Hsum.
  - apply union_subseteq_r', Hdom.
Qed.

Lemma run_invariant env c s : invariant s -> invariant (run env c s).
Proof.
  intros Hinv. unfold run.
  destruct (dispatch env c s) as [[[] s']|e] eqn:Hd; [|exact Hinv].
  destruct c.
  - eapply create_vote_invariant; eassumption.
  - eapply vote_invariant; eassumption.
  - rewrite opt_in_call_unfold in Hd. injection Hd as <-.
    apply opt_in_invariant, Hinv.
Qed.

Lemma reachable_invariant s : reachable s -> invariant s.
Proof.
  induction 1 as [|env c s _ IH].
  - exact invariant_init.
  - apply run_invariant, IH.
Qed.

Lemma reachable_at_reachable now s : reachable_at now s -> reachable s.
Proof. induction 1; constructor; assumption. Qed.

Lemma steps_reachable s s' : reachable s -> steps s s' -> reachable s'.
Proof. intros Hs; induction 1; [assumption|constructor; assumption]. Qed.

(** ** What one transaction can change *)

Lemma create_vote_ok_inv env t d n o1 o2 o3 o4 e s s' :
  create_vote env t d n o1 o2 o3 o4 e s = Ok (tt, s') ->
  vote_status s = 0 /\ 2 <= n <= 4 /\ Global_latest_timestamp env < e
  /\ s' = mkState t d n o1 o2 o3 o4 0 0 0 0
            (Global_latest_timestamp env) e 1 (optedIn s) (localState s).
Proof.
  rewrite create_vote_unfold.
  destruct (Z.eqb_spec (vote_status s) 0); [|discriminate].
  destruct (Z.geb_spec n 2); simpl; [|discriminate].
  destruct (Z.leb_spec n 4); simpl; [|discriminate].
  destruct (Z.ltb_spec (Global_latest_timestamp env) e); [|discriminate].
  intros [= <-]. repeat split; assumption.
Qed.

Lemma create_vote_after_creation env t d n o1 o2 o3 o4 e s :
  vote_status s = 1 ->
  create_vote env t d n o1 o2 o3 o4 e s = Err AlreadyCreated.
Proof. intros H. rewrite create_vote_unfold, H. reflexivity. Qed.

(** Every transaction is a rejected call, a successful creation from the
    not-created status, a successful vote, or an opt-in. *)
Lemma run_cases env c s :
  run env c s = s
  \/ (vote_status s = 0 /\ vote_status (run env c s) = 1)
  \/ (exists o, vote env o s = Ok (tt, run env c s))
  \/ run env c s = set_optedIn ({[Txn_sender env]} ∪ optedIn s) s.
Proof.
  unfold run. destruct c as [t d n o1 o2 o3 o4 e|o|].
  - cbn [dispatch].
    destruct (create_vote env t d n o1 o2 o3 o4 e s) as [[[] s']|err] eqn:Hc;
      [|left; reflexivity].
    apply create_vote_ok_inv in Hc as (H0 & _ & _ & ->).
    right; left. split; [exact H0|reflexivity].
  - cbn [dispatch].
    destruct (vote env o s) as [[[] s']|err] eqn:Hv; [|left; reflexivity].
    right; right; left. exists o. exact Hv.
  - right; right; right. reflexivity.
Qed.

(** Once the poll is created, no transaction changes its metadata. *)
Lemma run_metadata env c s :
  vote_status s = 1 -> metadata (run env c s) = metadata s.
Proof.
  intros Hact.
  destruct (run_cases env c s) as [->|[[H0 _]|[[o Hv]| -> ]]];
    [reflexivity|lia| |reflexivity].
  destruct (vote_cases env o s) as [[e He]|Hok]; [congruence|].
  destruct Hok as (_ & _ & _ & _ & _ & s1 & Hs1 & _ & _ & Ht & Hd & Hn
                   & H1 & H2 & H3 & H4 & Hsa & Hea & Hvs & _).
  assert (s1 = run env c s) as <- by congruence.
  unfold metadata. congruence.
Qed.

Lemma steps_metadata s s' :
  vote_status s = 1 -> steps s s' -> metadata s' = metadata s.
Proof.
  intros Hact. induction 1 as [|env c s' _ IH]; [reflexivity|].
  rewrite <- IH. apply run_metadata.
  unfold metadata in IH. congruence.
Qed.


(** A key written by [vote] stays, with its value, and storage stays
    allocated. *)
Lemma run_keeps_record env c s a v :
  a ∈ optedIn s -> localState s !! a = Some v ->
  a ∈ optedIn (run env c s) /\ localState (run env c s) !! a = Some v.
Proof.
  intros Hin Hv.
  destruct (run_cases env c s) as [->|[[H0 H1]|[[o Hvote]| -> ]]].
  - split; assumption.
  - unfold run in *. destruct c as [t d n o1 o2 o3 o4 e|o|]; cbn [dispatch] in *.
    + destruct (create_vote env t d n o1 o2 o3 o4 e s) as [[[] s']|err] eqn:Hc;
        [|lia].
      apply create_vote_ok_inv in Hc as (_ & _ & _ & ->). split; assumption.
    + destruct (vote_cases env o s) as [[e He]|Hok].
      * rewrite He in H1. lia.
      * destruct Hok as (_ & _ & _ & _ & _ & s1 & Hs1 & _ & _ & _ & _ & _
                         & _ & _ & _ & _ & _ & _ & Hvs & _).
        rewrite Hs1 in H1. lia.
    + simpl in H1. lia.
  - destruct (vote_cases env o s) as [[e He]|Hok]; [congruence|].
    destruct Hok as (_ & _ & _ & _ & Hnone & s1 & Hs1 & Hloc & Hopt & _).
    assert (s1 = run env c s) as <- by congruence.
    rewrite Hloc, Hopt. split; [assumption|].
    rewrite lookup_insert_ne; [assumption|]. congruence.
  - split; [|assumption]. simpl. apply elem_of_union_r, Hin.
Qed.

Lemma steps_keeps_record s s' a v :
  a ∈ optedIn s -> localState s !! a = Some v -> steps s s' ->
  a ∈ optedIn s' /\ localState s' !! a = Some v.
Proof.
  intros Hin Hv. induction 1 as [|env c s' _ [IH1 IH2]]; [split; assumption|].
  apply run_keeps_record; assumption.
Qed.

(** ** Tally conservation *)

Lemma voted_accounts_dom s :
  dom (localState s) ⊆ optedIn s -> voted_accounts s = dom (localState s).
Proof.
  intros Hdom. apply set_eq. intros a.
  unfold voted_accounts. rewrite elem_of_filter, elem_of_dom.
  unfold hasVoted. split.
  - intros [Hv _]. destruct (localState s !! a); [eauto|discriminate].
  - intros Hsome. split.
    + destruct Hsome as [v ->]. reflexivity.
    + apply Hdom, elem_of_dom, Hsome.
Qed.

Lemma scenarioA_reachable : reachable scenarioA_voted.
Proof.
  unfold scenarioA_voted, scenarioA_opted, scenarioA_created.
  do 3 apply reachable_step. apply reachable_init.
Qed.

(** C1.  In every reachable state the sum of the four tallies equals the
    number of accounts whose local-state key is present, which is the number
    of opted-in accounts with [hasVoted] true. *)
Theorem tally_conservation s :
  reachable s ->
  option1Votes s + option2Votes s + option3Votes s + option4Votes s
    = Z.of_nat (size (localState s))
  /\ size (localState s) = size (voted_accounts s).
Proof.
  intros Hr. destruct (reachable_invariant s Hr) as [_ Hsum Hdom]. split.
  - exact Hsum.
  - rewrite (voted_accounts_dom s Hdom). symmetry. apply size_dom.
Qed.

Lemma tally_conservation_witness :
  reachable scenarioA_voted
  /\ option1Votes scenarioA_voted + option2Votes scenarioA_voted
     + option3Votes scenarioA_voted + option4Votes scenarioA_voted
     = Z.of_nat (size (localState scenarioA_voted))
  /\ size (localState scenarioA_voted) = size (voted_accounts scenarioA_voted).
Proof.
  split.
  - exact scenarioA_reachable.
  - apply (tally_conservation scenarioA_voted). exact scenarioA_reachable.
Defined.

(** ** Creation *)

(** C2.  After one successful [create_vote], in every later state the status
    is still Active, and every further [create_vote], whatever its arguments,
    sender and time, fails with [AlreadyCreated] and leaves the state as it
    is.  The successful call itself started from status NotCreated. *)
Theorem create_vote_once env t d n o1 o2 o3 o4 e s s1 s2 :
  create_vote env t d n o1 o2 o3 o4 e s = Ok (tt, s1) ->
  steps s1 s2 ->
  vote_status s = 0 /\ vote_status s1 = 1 /\ vote_status s2 = 1
  /\ forall env' t' d' n' o1' o2' o3' o4' e',
       create_vote env' t' d' n' o1' o2' o3' o4' e' s2 = Err AlreadyCreated
       /\ run env' (CreateVote t' d' n' o1' o2' o3' o4' e') s2 = s2.
Proof.
  intros Hc Hsteps.
  apply create_vote_ok_inv in Hc as (H0 & _ & _ & ->).
  pose proof (fun H => steps_metadata _ _ H Hsteps) as Hmeta.
  specialize (Hmeta eq_refl).
  assert (vote_status s2 = 1) as H2.
  { unfold metadata in Hmeta. simpl in Hmeta. congruence. }
  repeat split; try assumption.
  - apply create_vote_after_creation, H2.
  - unfold run; cbn [dispatch].
    rewrite (create_vote_after_creation _ _ _ _ _ _ _ _ _ _ H2). reflexivity.
Qed.

Lemma create_vote_once_witness :
  vote_status __init__ = 0
  /\ vote_status scenarioA_created = 1
  /\ vote_status scenarioA_voted = 1
  /\ forall env' t' d' n' o1' o2' o3' o4' e',
       create_vote env' t' d' n' o1' o2' o3' o4' e' scenarioA_voted
         = Err AlreadyCreated
       /\ run env' (CreateVote t' d' n' o1' o2' o3' o4' e') scenarioA_voted
          = scenarioA_voted.
Proof.
  apply (create_vote_once (mkEnv 1%N 1000) "Poll" "" 2 "Yes" "No" "" "" 1100
           __init__ scenarioA_created scenarioA_voted).
  - reflexivity.
  - unfold scenarioA_voted, scenarioA_opted.
    do 2 apply steps_step. apply steps_refl.
Defined.

(** C5.  A successful [create_vote] stores every supplied field as given
    (all four option labels, whatever the option count), zeroes the four
    tallies, sets [startsAt] to the current time, [endsAt] to the supplied
    value and the status to Active, and touches no account storage.  In every
    later state [startsAt] and [endsAt] still have these values, and
    [startsAt < endsAt]. *)
Theorem create_vote_effect env t d n o1 o2 o3 o4 e s s1 :
  create_vote env t d n o1 o2 o3 o4 e s = Ok (tt, s1) ->
  (title s1 = t /\ description s1 = d /\ noOfOptions s1 = n
   /\ option1 s1 = o1 /\ option2 s1 = o2 /\ option3 s1 = o3 /\ option4 s1 = o4
   /\ option1Votes s1 = 0 /\ option2Votes s1 = 0
   /\ option3Votes s1 = 0 /\ option4Votes s1 = 0
   /\ startsAt s1 = Global_latest_timestamp env /\ endsAt s1 = e
   /\ vote_status s1 = 1
   /\ optedIn s1 = optedIn s /\ localState s1 = localState s)
  /\ forall s2, steps s1 s2 ->
       startsAt s2 = Global_latest_timestamp env /\ endsAt s2 = e
       /\ startsAt s2 < endsAt s2.
Proof.
  intros Hc. apply create_vote_ok_inv in Hc as (_ & _ & Hlt & ->).
  split; [repeat split|].
  intros s2 Hsteps.
  pose proof (fun H => steps_metadata _ _ H Hsteps) as Hmeta.
  specialize (Hmeta eq_refl).
  unfold metadata in Hmeta; simpl in Hmeta.
  injection Hmeta as _ _ _ _ _ _ _ Hsa Hea _.
  rewrite Hsa, Hea. repeat split; [reflexivity..|exact Hlt].
Qed.

Lemma create_vote_effect_witness :
  (title scenarioA_created = "Poll" /\ description scenarioA_created = ""
   /\ noOfOptions scenarioA_created = 2
   /\ option1 scenarioA_created = "Yes" /\ option2 scenarioA_created = "No"
   /\ option3 scenarioA_created = "" /\ option4 scenarioA_created = ""
   /\ option1Votes scenarioA_created = 0 /\ option2Votes scenarioA_created = 0
   /\ option3Votes scenarioA_created = 0 /\ option4Votes scenarioA_created = 0
   /\ startsAt scenarioA_created = 1000 /\ endsAt scenarioA_created = 1100
   /\ vote_status scenarioA_created = 1
   /\ optedIn scenarioA_created = optedIn __init__
   /\ localState scenarioA_created = localState __init__)
  /\ forall s2, steps scenarioA_created s2 ->
       startsAt s2 = 1000 /\ endsAt s2 = 1100 /\ startsAt s2 < endsAt s2.
Proof.
  apply (create_vote_effect (mkEnv 1%N 1000) "Poll" "" 2 "Yes" "No" "" "" 1100
           __init__ scenarioA_created).
  reflexivity.
Defined.

(** C6.  With no poll created yet and a deadline after the current time,
    [create_vote] succeeds for an option count of 2, 3 or 4, and for any
    other option count fails with [InvalidOptionCount], the state being left
    as it is. *)
Theorem create_vote_option_bound env t d n o1 o2 o3 o4 e s :
  vote_status s = 0 ->
  Global_latest_timestamp env < e ->
  (2 <= n <= 4 ->
     exists s', create_vote env t d n o1 o2 o3 o4 e s = Ok (tt, s')
                /\ run env (CreateVote t d n o1 o2 o3 o4 e) s = s')
  /\ (~ 2 <= n <= 4 ->
        create_vote env t d n o1 o2 o3 o4 e s = Err InvalidOptionCount
        /\ run env (CreateVote t d n o1 o2 o3 o4 e) s = s).
Proof.
  intros H0 Hlt. unfold run; cbn [dispatch]. rewrite create_vote_unfold, H0.
  simpl (0 =? 0).
  destruct (Z.ltb_spec (Global_latest_timestamp env) e); [|lia].
  destruct (Z.geb_spec n 2); destruct (Z.leb_spec n 4); simpl;
    (split; [intros Hn|intros Hn]);
    first [lia | eexists; split; reflexivity | split; reflexivity].
Qed.

Lemma create_vote_option_bound_witness :
  (exists s', create_vote (mkEnv 1%N 1000) "Poll" "" 3 "a" "b" "c" "" 1100
                __init__ = Ok (tt, s')
              /\ run (mkEnv 1%N 1000)
                   (CreateVote "Poll" "" 3 "a" "b" "c" "" 1100) __init__ = s')
  /\ create_vote (mkEnv 1%N 1000) "Poll" "" 5 "a" "b" "c" "d" 1100 __init__
     = Err InvalidOptionCount
  /\ run (mkEnv 1%N 1000) (CreateVote "Poll" "" 5 "a" "b" "c" "d" 1100) __init__
     = __init__.
Proof.
  split.
  - apply (create_vote_option_bound (mkEnv 1%N 1000) "Poll" "" 3 "a" "b" "c" ""
             1100 __init__); [reflexivity | simpl; lia | lia].
  - apply (create_vote_option_bound (mkEnv 1%N 1000) "Poll" "" 5 "a" "b" "c" "d"
             1100 __init__); [reflexivity | simpl; lia | lia].
Defined.

(** ** Voting *)

(** C7.  In a reachable state, an option that passes the third assertion of
    [vote] is one of 1, 2, 3, 4, and no [vote] call ends in the [op.exit(0)]
    branch. *)
Theorem vote_exit_unreachable env o s :
  reachable s ->
  (1 <= o <= noOfOptions s -> o = 1 \/ o = 2 \/ o = 3 \/ o = 4)
  /\ vote env o s <> Err ProgramExit.
Proof.
  intros Hr. destruct (reachable_invariant s Hr) as [Hst _ _].
  assert (noOfOptions s <= 4) as Hn4.
  { destruct Hst as [[_ (Hn & _)]|[_ [Hn _]]]; lia. }
  split; [lia|].
  rewrite vote_unfold.
  destruct (_ <? _); [|discriminate].
  destruct (_ >? _); [|discriminate].
  destruct (Z.geb_spec o 1); simpl; [|discriminate].
  destruct (Z.leb_spec o (noOfOptions s)); simpl; [|discriminate].
  destruct (decide _); [|discriminate].
  destruct (localState s !! Txn_sender env); [discriminate|].
  destruct (Z.eqb_spec o 1); [destruct (_ <=? _); discriminate|].
  destruct (Z.eqb_spec o 2); [destruct (_ <=? _); discriminate|].
  destruct (Z.eqb_spec o 3); [destruct (_ <=? _); discriminate|].
  destruct (Z.eqb_spec o 4); [destruct (_ <=? _); discriminate|].
  lia.
Qed.

Lemma vote_exit_unreachable_witness :
  reachable scenarioA_voted
  /\ 1 <= 2 <= noOfOptions scenarioA_voted
  /\ (2 = 1 \/ 2 = 2 \/ 2 = 3 \/ 2 = 4)
  /\ vote (mkEnv 9%N 1070) 2 scenarioA_voted <> Err ProgramExit.
Proof.
  destruct (vote_exit_unreachable (mkEnv 9%N 1070) 2 scenarioA_voted
              scenarioA_reachable) as [Hopt Hexit].
  assert (1 <= 2 <= noOfOptions scenarioA_voted) as Hrange
    by (vm_compute; split; discriminate).
  split; [exact scenarioA_reachable|]. split; [exact Hrange|].
  split; [exact (Hopt Hrange)|exact Hexit].
Defined.

(** [vote] reads [endsAt], [startsAt], [noOfOptions], the tallies and the
    local state, and never [vote_status]. *)
Lemma vote_ignores_status env o s v :
  vote env o (set_vote_status v s) =
  match vote env o s with
  | Ok (u, s') => Ok (u, set_vote_status v s')
  | Err e => Err e
  end.
Proof.
  rewrite !vote_unfold. simpl.
  destruct (_ <? _); [|reflexivity].
  destruct (_ >? _); [|reflexivity].
  destruct (_ && _); [|reflexivity].
  destruct (decide _); [|reflexivity].
  destruct (localState s !! Txn_sender env); [reflexivity|].
  repeat (destruct (_ =? _); [destruct (_ <=? _); reflexivity|]).
  reflexivity.
Qed.

(** C9.  [vote] does not depend on [vote_status]; yet in a reachable state
    whose status is NotCreated, [endsAt] is 0 and every [vote] call made at
    an unsigned time fails at the first assertion, with [VotingEnded]. *)
Theorem vote_before_creation env o s :
  (forall v, vote env o (set_vote_status v s) =
             match vote env o s with
             | Ok (u, s') => Ok (u, set_vote_status v s')
             | Err e => Err e
             end)
  /\ (reachable s -> vote_status s = 0 -> 0 <= Global_latest_timestamp env ->
      endsAt s = 0
      /\ (Global_latest_timestamp env <? endsAt s) = false
      /\ vote env o s = Err VotingEnded
      /\ run env (Vote o) s = s).
Proof.
  split; [intros v; apply vote_ignores_status|].
  intros Hr H0 Hnow. destruct (reachable_invariant s Hr) as [Hst _ _].
  destruct Hst as [[_ (_ & _ & Hend & _)]|[H1 _]]; [|lia].
  assert ((Global_latest_timestamp env <? endsAt s) = false) as Hlt
    by (apply Z.ltb_ge; lia).
  assert (vote env o s = Err VotingEnded) as Hv
    by (rewrite vote_unfold, Hlt; reflexivity).
  repeat split; try assumption.
  unfold run; cbn [dispatch]. rewrite Hv. reflexivity.
Qed.

Lemma vote_before_creation_witness :
  reachable (run (mkEnv X 5) OptIn __init__)
  /\ vote_status (run (mkEnv X 5) OptIn __init__) = 0
  /\ 0 <= Global_latest_timestamp (mkEnv X 7)
  /\ endsAt (run (mkEnv X 5) OptIn __init__) = 0
  /\ (Global_latest_timestamp (mkEnv X 7)
        <? endsAt (run (mkEnv X 5) OptIn __init__)) = false
  /\ vote (mkEnv X 7) 1 (run (mkEnv X 5) OptIn __init__) = Err VotingEnded
  /\ run (mkEnv X 7) (Vote 1) (run (mkEnv X 5) OptIn __init__)
     = run (mkEnv X 5) OptIn __init__.
Proof.
  assert (reachable (run (mkEnv X 5) OptIn __init__)) as Hr
    by (apply reachable_step, reachable_init).
  split; [exact Hr|]. split; [reflexivity|]. split; [simpl; lia|].
  apply (vote_before_creation (mkEnv X 7) 1 (run (mkEnv X 5) OptIn __init__));
    [exact Hr | reflexivity | simpl; lia].
Defined.

(** C10.  A successful [vote] adds one to the tally of the chosen option,
    which is one of 1..4, and writes the chosen option under the caller's
    key; the other three tallies, the poll metadata, the set of opted-in
    accounts and every other account's key are as before. *)
Theorem vote_frame env o s s' :
  vote env o s = Ok (tt, s') ->
  1 <= o <= 4
  /\ option1Votes s' = option1Votes s + (if o =? 1 then 1 else 0)
  /\ option2Votes s' = option2Votes s + (if o =? 2 then 1 else 0)
  /\ option3Votes s' = option3Votes s + (if o =? 3 then 1 else 0)
  /\ option4Votes s' = option4Votes s + (if o =? 4 then 1 else 0)
  /\ localState s' !! Txn_sender env = Some o
  /\ (forall a, a <> Txn_sender env -> localState s' !! a = localState s !! a)
  /\ localState s' = <[Txn_sender env := o]> (localState s)
  /\ optedIn s' = optedIn s
  /\ title s' = title s /\ description s' = description s
  /\ noOfOptions s' = noOfOptions s
  /\ option1 s' = option1 s /\ option2 s' = option2 s
  /\ option3 s' = option3 s /\ option4 s' = option4 s
  /\ startsAt s' = startsAt s /\ endsAt s' = endsAt s
  /\ vote_status s' = vote_status s.
Proof.
  intros Hv.
  destruct (vote_cases env o s) as [[e He]|Hok]; [congruence|].
  destruct Hok as (_ & _ & _ & _ & _ & s1 & Hs1 & Hloc & Hopt & Ht & Hd & Hn
                   & H1 & H2 & H3 & H4 & Hsa & Hea & Hvs & Ho4 & _ & Hk).
  assert (s1 = s') as -> by congruence.
  assert (Hk1 := Hk 1). assert (Hk2 := Hk 2).
  assert (Hk3 := Hk 3). assert (Hk4 := Hk 4).
  unfold tally in Hk1, Hk2, Hk3, Hk4; simpl in Hk1, Hk2, Hk3, Hk4.
  split; [lia|].
  split; [destruct Ho4 as [-> | [-> | [-> | -> ] ] ]; simpl in *; lia|].
  split; [destruct Ho4 as [-> | [-> | [-> | -> ] ] ]; simpl in *; lia|].
  split; [destruct Ho4 as [-> | [-> | [-> | -> ] ] ]; simpl in *; lia|].
  split; [destruct Ho4 as [-> | [-> | [-> | -> ] ] ]; simpl in *; lia|].
  split; [rewrite Hloc; apply lookup_insert_eq|].
  split; [intros a Ha; rewrite Hloc; apply lookup_insert_ne; congruence|].
  repeat (split; [assumption|]). assumption.
Qed.

Lemma vote_frame_witness :
  vote (mkEnv X 1050) 1 scenarioA_opted = Ok (tt, scenarioA_voted)
  /\ 1 <= 1 <= 4
  /\ option1Votes scenarioA_voted = option1Votes scenarioA_opted + 1
  /\ option2Votes scenarioA_voted = option2Votes scenarioA_opted + 0
  /\ option3Votes scenarioA_voted = option3Votes scenarioA_opted + 0
  /\ option4Votes scenarioA_voted = option4Votes scenarioA_opted + 0
  /\ localState scenarioA_voted !! X = Some 1
  /\ (forall a, a <> X ->
        localState scenarioA_voted !! a = localState scenarioA_opted !! a)
  /\ localState scenarioA_voted = <[X := 1]> (localState scenarioA_opted)
  /\ optedIn scenarioA_voted = optedIn scenarioA_opted
  /\ title scenarioA_voted = title scenarioA_opted
  /\ description scenarioA_voted = description scenarioA_opted
  /\ noOfOptions scenarioA_voted = noOfOptions scenarioA_opted
  /\ option1 scenarioA_voted = option1 scenarioA_opted
  /\ option2 scenarioA_voted = option2 scenarioA_opted
  /\ option3 scenarioA_voted = option3 scenarioA_opted
  /\ option4 scenarioA_voted = option4 scenarioA_opted
  /\ startsAt scenarioA_voted = startsAt scenarioA_opted
  /\ endsAt scenarioA_voted = endsAt scenarioA_opted
  /\ vote_status scenarioA_voted = vote_status scenarioA_opted.
Proof.
  assert (vote (mkEnv X 1050) 1 scenarioA_opted = Ok (tt, scenarioA_voted))
    as Hv by (vm_compute; reflexivity).
  split; [exact Hv|].
  apply (vote_frame (mkEnv X 1050) 1 scenarioA_opted scenarioA_voted Hv).
Defined.

(** ** Opting in *)

(** C8.  An [opt_in] call by an account whose storage is already allocated
    is accepted and leaves the whole state as it is: no key and no global
    field changes.  The handler itself accepts every call and changes
    nothing, and a second call right after a first one changes nothing. *)
Theorem opt_in_idempotent env s :
  Txn_sender env ∈ optedIn s ->
  dispatch env OptIn s = Ok (tt, s)
  /\ run env OptIn s = s
  /\ opt_in env s = Ok (tt, s)
  /\ hasVoted (run env OptIn s) (Txn_sender env) = hasVoted s (Txn_sender env).
Proof.
  intros Hin.
  assert ({[Txn_sender env]} ∪ optedIn s = optedIn s) as Heq.
  { apply subseteq_union_1_L, singleton_subseteq_l, Hin. }
  assert (dispatch env OptIn s = Ok (tt, s)) as Hd.
  { rewrite opt_in_call_unfold, Heq. destruct s; reflexivity. }
  assert (run env OptIn s = s) as Hrun.
  { unfold run. rewrite Hd. reflexivity. }
  split; [exact Hd|]. split; [exact Hrun|]. split; [reflexivity|].
  rewrite Hrun. reflexivity.
Qed.

Lemma opt_in_idempotent_witness :
  Txn_sender (mkEnv X 1055) ∈ optedIn scenarioA_voted
  /\ dispatch (mkEnv X 1055) OptIn scenarioA_voted = Ok (tt, scenarioA_voted)
  /\ run (mkEnv X 1055) OptIn scenarioA_voted = scenarioA_voted
  /\ opt_in (mkEnv X 1055) scenarioA_voted = Ok (tt, scenarioA_voted)
  /\ hasVoted (run (mkEnv X 1055) OptIn scenarioA_voted) X
     = hasVoted scenarioA_voted X.
Proof.
  assert (Txn_sender (mkEnv X 1055) ∈ optedIn scenarioA_voted) as Hin.
  { apply (bool_decide_unpack _). vm_compute. exact I. }
  split; [exact Hin|].
  apply (opt_in_idempotent (mkEnv X 1055) scenarioA_voted Hin).
Defined.

(** ** One vote per account *)

Lemma vote_after_record env o s v :
  Txn_sender env ∈ optedIn s ->
  localState s !! Txn_sender env = Some v ->
  vote env o s = Err (second_vote_error env o s).
Proof.
  intros Hin Hv. rewrite vote_unfold. unfold second_vote_error.
  destruct (_ <? _); [|reflexivity].
  destruct (_ >? _); [|reflexivity].
  destruct (_ && _); [|reflexivity].
  destruct (decide _); [|contradiction].
  rewrite Hv. reflexivity.
Qed.

(** C4, as the code has it.  After an account's successful vote, in every
    later state every further [vote] call of that account is rejected and
    leaves the state as it is.  The error is that of the first failing
    assertion: [AlreadyVoted] when the call is made inside the window with an
    option in [1, noOfOptions], and otherwise [VotingEnded],
    [VotingNotStarted] or [InvalidOption]. *)
Theorem second_vote_rejected env o s s1 s2 env' o' :
  vote env o s = Ok (tt, s1) ->
  steps s1 s2 ->
  Txn_sender env' = Txn_sender env ->
  vote env' o' s2 = Err (second_vote_error env' o' s2)
  /\ run env' (Vote o') s2 = s2
  /\ (startsAt s2 < Global_latest_timestamp env' < endsAt s2 ->
      1 <= o' <= noOfOptions s2 ->
      vote env' o' s2 = Err AlreadyVoted).
Proof.
  intros Hv Hsteps Hsender.
  destruct (vote_cases env o s) as [[e He]|Hok]; [congruence|].
  destruct Hok as (_ & _ & _ & Hin & _ & s' & Hs' & Hloc & Hopt & _).
  assert (s' = s1) as -> by congruence.
  assert (Txn_sender env ∈ optedIn s1) as Hin1 by (rewrite Hopt; exact Hin).
  assert (localState s1 !! Txn_sender env = Some o) as Hkey
    by (rewrite Hloc; apply lookup_insert_eq).
  destruct (steps_keeps_record s1 s2 _ _ Hin1 Hkey Hsteps) as [Hin2 Hkey2].
  rewrite <- Hsender in Hin2, Hkey2.
  assert (Hrej := vote_after_record env' o' s2 o Hin2 Hkey2).
  split; [exact Hrej|]. split.
  - unfold run; cbn [dispatch]. rewrite Hrej. reflexivity.
  - intros [Hs He] [Ho1 Ho2]. rewrite Hrej. unfold second_vote_error.
    destruct (Z.ltb_spec (Global_latest_timestamp env') (endsAt s2)); [|lia].
    destruct (Z.gtb_spec (Global_latest_timestamp env') (startsAt s2)); [|lia].
    destruct (Z.geb_spec o' 1); [|lia].
    destruct (Z.leb_spec o' (noOfOptions s2)); [|lia].
    reflexivity.
Qed.

Lemma second_vote_rejected_witness :
  vote (mkEnv X 1050) 1 scenarioA_opted = Ok (tt, scenarioA_voted)
  /\ vote (mkEnv X 1060) 2 scenarioA_voted
     = Err (second_vote_error (mkEnv X 1060) 2 scenarioA_voted)
  /\ run (mkEnv X 1060) (Vote 2) scenarioA_voted = scenarioA_voted
  /\ vote (mkEnv X 1060) 2 scenarioA_voted = Err AlreadyVoted.
Proof.
  assert (vote (mkEnv X 1050) 1 scenarioA_opted = Ok (tt, scenarioA_voted))
    as Hv by (vm_compute; reflexivity).
  destruct (second_vote_rejected (mkEnv X 1050) 1 scenarioA_opted
              scenarioA_voted scenarioA_voted (mkEnv X 1060) 2 Hv
              (steps_refl scenarioA_voted) eq_refl) as (Herr & Hrun & Hin).
  split; [exact Hv|]. split; [exact Herr|]. split; [exact Hrun|].
  apply Hin; vm_compute; split; first [reflexivity | discriminate].
Defined.

(** C4 as stated fails: account [X] has voted for option 1 in a poll with two
    options that closes at 1100; its second call with option 3 is rejected
    with [InvalidOption], and its second call at time 1100 with
    [VotingEnded], neither with [AlreadyVoted]. *)
Lemma second_vote_error_counterexample :
  vote (mkEnv X 1050) 1 scenarioA_opted = Ok (tt, scenarioA_voted)
  /\ vote (mkEnv X 1060) 3 scenarioA_voted = Err InvalidOption
  /\ vote (mkEnv X 1060) 3 scenarioA_voted <> Err AlreadyVoted
  /\ vote (mkEnv X 1100) 2 scenarioA_voted = Err VotingEnded
  /\ vote (mkEnv X 1100) 2 scenarioA_voted <> Err AlreadyVoted.
Proof.
  assert (vote (mkEnv X 1060) 3 scenarioA_voted = Err InvalidOption) as H1
    by (vm_compute; reflexivity).
  assert (vote (mkEnv X 1100) 2 scenarioA_voted = Err VotingEnded) as H2
    by (vm_compute; reflexivity).
  split; [vm_compute; reflexivity|].
  split; [exact H1|]. split; [rewrite H1; discriminate|].
  split; [exact H2|]. rewrite H2; discriminate.
Qed.

(** ** The voting window *)

Lemma is_uint64_0 : is_uint64 0.
Proof. unfold is_uint64, UInt64_MAX. lia. Qed.

Lemma is_uint64_1 : is_uint64 1.
Proof. unfold is_uint64, UInt64_MAX. lia. Qed.

Lemma crowd_reachable_at n : reachable_at 1 (crowd n).
Proof.
  induction n as [|k IH].
  - apply (reachable_at_step 0 (mkEnv 0%N 1) OptIn poll0);
      [|simpl; lia|exact is_uint64_1].
    apply (reachable_at_step 0 (mkEnv 0%N 0));
      [|simpl; lia|exact is_uint64_0].
    apply reachable_at_init, is_uint64_0.
  - cbn [crowd].
    apply (reachable_at_step 1 (mkEnv (N.of_nat (S k)) 1) (Vote 1));
      [|simpl; lia|exact is_uint64_1].
    apply (reachable_at_step 1 (mkEnv (N.of_nat (S k)) 1) OptIn);
      [exact IH|simpl; lia|exact is_uint64_1].
Qed.

(** One round of the crowd: an account without a key opts in and votes for
    option 1 at time 1, the window being (0, 2). *)
Lemma round_effect a s :
  startsAt s = 0 -> endsAt s = 2 -> noOfOptions s = 2 ->
  option1Votes s + 1 <= UInt64_MAX ->
  localState s !! a = None ->
  let s' := run (mkEnv a 1) (Vote 1) (run (mkEnv a 1) OptIn s) in
  startsAt s' = 0 /\ endsAt s' = 2 /\ noOfOptions s' = 2
  /\ vote_status s' = vote_status s
  /\ option1Votes s' = option1Votes s + 1
  /\ optedIn s' = {[a]} ∪ optedIn s
  /\ localState s' = <[a := 1]> (localState s).
Proof.
  intros Hsa Hea Hn Hfit Hnone. unfold run at 2. rewrite opt_in_call_unfold.
  cbn [Txn_sender]. unfold run; cbn [dispatch]. rewrite vote_unfold.
  cbn [Txn_sender Global_latest_timestamp endsAt startsAt noOfOptions
       localState optedIn option1Votes set_optedIn].
  rewrite Hsa, Hea, Hn, Hnone.
  destruct (decide (a ∈ {[a]} ∪ optedIn s)) as [_|Hout];
    [|exfalso; apply Hout, elem_of_union_l, elem_of_singleton; reflexivity].
  destruct (Z.leb_spec (option1Votes s + 1) UInt64_MAX); [|lia].
  simpl. repeat split; assumption.
Qed.

Lemma crowd_shape n :
  Z.of_nat n <= UInt64_MAX ->
  startsAt (crowd n) = 0 /\ endsAt (crowd n) = 2 /\ noOfOptions (crowd n) = 2
  /\ vote_status (crowd n) = 1
  /\ option1Votes (crowd n) = Z.of_nat n
  /\ 0%N ∈ optedIn (crowd n)
  /\ forall a, (a = 0 \/ N.of_nat n < a)%N -> localState (crowd n) !! a = None.
Proof.
  induction n as [|k IH]; intros Hn.
  - do 5 (split; [reflexivity|]). split.
    + apply (bool_decide_unpack _). vm_compute. exact I.
    + intros a _. apply lookup_empty.
  - destruct IH as (Hsa & Hea & Hno & Hvs & Hv1 & H0 & Hfresh); [lia|].
    cbn [crowd].
    destruct (round_effect (N.of_nat (S k)) (crowd k) Hsa Hea Hno)
      as (Hsa' & Hea' & Hno' & Hvs' & Hv1' & Hopt' & Hloc'); [lia| |].
    { apply Hfresh. right. lia. }
    repeat (split; [first [assumption | congruence | lia]|]).
    split.
    + rewrite Hopt'. apply elem_of_union_r, H0.
    + intros a Ha. rewrite Hloc', lookup_insert_ne by lia. apply Hfresh. lia.
Qed.

(** C3, as the code has it.  For a created poll: a [vote] call at
    [startsAt] fails with [VotingNotStarted] and one at [endsAt] with
    [VotingEnded]; a call strictly inside the window with a valid option, by
    an opted-in account without a key, succeeds when the chosen tally is
    below the largest UInt64 and is rejected with [Overflow] when it has
    reached it.  No call outside the strict window succeeds. *)
Theorem voting_window env o s :
  reachable s ->
  vote_status s = 1 ->
  (Global_latest_timestamp env = startsAt s ->
     vote env o s = Err VotingNotStarted)
  /\ (Global_latest_timestamp env = endsAt s -> vote env o s = Err VotingEnded)
  /\ (startsAt s < Global_latest_timestamp env < endsAt s ->
      1 <= o <= noOfOptions s ->
      Txn_sender env ∈ optedIn s ->
      localState s !! Txn_sender env = None ->
      (tally o s < UInt64_MAX -> exists s', vote env o s = Ok (tt, s'))
      /\ (tally o s = UInt64_MAX -> vote env o s = Err Overflow))
  /\ (forall s', vote env o s = Ok (tt, s') ->
        startsAt s < Global_latest_timestamp env < endsAt s).
Proof.
  intros Hr Hact. destruct (reachable_invariant s Hr) as [Hst _ _].
  destruct Hst as [[H0 _]|[_ [Hn Hwin]]]; [lia|].
  split; [|split; [|split]].
  - intros Hnow. rewrite vote_unfold.
    destruct (Z.ltb_spec (Global_latest_timestamp env) (endsAt s)); [|lia].
    destruct (Z.gtb_spec (Global_latest_timestamp env) (startsAt s)); [lia|].
    reflexivity.
  - intros Hnow. rewrite vote_unfold.
    destruct (Z.ltb_spec (Global_latest_timestamp env) (endsAt s)); [lia|].
    reflexivity.
  - intros [Hs He] [Ho1 Ho2] Hin Hnone. rewrite vote_unfold.
    destruct (Z.ltb_spec (Global_latest_timestamp env) (endsAt s)); [|lia].
    destruct (Z.gtb_spec (Global_latest_timestamp env) (startsAt s)); [|lia].
    destruct (Z.geb_spec o 1); [|lia].
    destruct (Z.leb_spec o (noOfOptions s)); [|lia].
    destruct (decide _); [|contradiction].
    rewrite Hnone. simpl. unfold tally.
    destruct (Z.eqb_spec o 1);
      [destruct (Z.leb_spec (option1Votes s + 1) UInt64_MAX);
       split; intros; first [lia | eauto]|].
    destruct (Z.eqb_spec o 2);
      [destruct (Z.leb_spec (option2Votes s + 1) UInt64_MAX);
       split; intros; first [lia | eauto]|].
    destruct (Z.eqb_spec o 3);
      [destruct (Z.leb_spec (option3Votes s + 1) UInt64_MAX);
       split; intros; first [lia | eauto]|].
    destruct (Z.eqb_spec o 4);
      [destruct (Z.leb_spec (option4Votes s + 1) UInt64_MAX);
       split; intros; first [lia | eauto]|].
    lia.
  - intros s' Hv.
    destruct (vote_cases env o s) as [[e He]|Hok]; [congruence|].
    destruct Hok as (He & Hs & _). lia.
Qed.

Lemma scenarioA_opted_reachable : reachable scenarioA_opted.
Proof.
  unfold scenarioA_opted, scenarioA_created.
  do 2 apply reachable_step. apply reachable_init.
Qed.

Lemma voting_window_witness :
  reachable scenarioA_opted /\ vote_status scenarioA_opted = 1
  /\ vote (mkEnv X 1000) 1 scenarioA_opted = Err VotingNotStarted
  /\ vote (mkEnv X 1100) 1 scenarioA_opted = Err VotingEnded
  /\ (exists s', vote (mkEnv X 1050) 1 scenarioA_opted = Ok (tt, s'))
  /\ (forall s', vote (mkEnv X 1050) 1 scenarioA_opted = Ok (tt, s') ->
        startsAt scenarioA_opted < 1050 < endsAt scenarioA_opted).
Proof.
  split; [exact scenarioA_opted_reachable|]. split; [reflexivity|].
  split.
  { apply (voting_window (mkEnv X 1000) 1 scenarioA_opted
             scenarioA_opted_reachable eq_refl). reflexivity. }
  split.
  { apply (voting_window (mkEnv X 1100) 1 scenarioA_opted
             scenarioA_opted_reachable eq_refl). reflexivity. }
  destruct (voting_window (mkEnv X 1050) 1 scenarioA_opted
              scenarioA_opted_reachable eq_refl) as (_ & _ & Hin & Honly).
  split; [|exact Honly].
  apply Hin.
  - vm_compute. split; reflexivity.
  - vm_compute. split; discriminate.
  - apply (bool_decide_unpack _). vm_compute. exact I.
  - vm_compute. reflexivity.
  - vm_compute. reflexivity.
Defined.

Lemma full_house_size : Z.of_nat (Z.to_nat UInt64_MAX) = UInt64_MAX.
Proof. apply Z2Nat.id. unfold UInt64_MAX. lia. Qed.

(** C3 as stated fails in two places.  Before creation a call at time 0,
    which is [startsAt], is rejected with [VotingEnded], not
    [VotingNotStarted].  And in [full_house], reached along a clock that
    never goes back, the first tally is the largest UInt64: account 0 has
    opted in, has not voted, calls at time 1 inside the window (0, 2) with
    the valid option 1, and is rejected with [Overflow]. *)
Lemma voting_window_counterexample :
  (reachable_at 0 __init__
   /\ Global_latest_timestamp (mkEnv X 0) = startsAt __init__
   /\ vote (mkEnv X 0) 1 __init__ = Err VotingEnded)
  /\ (reachable_at 1 full_house
      /\ vote_status full_house = 1
      /\ startsAt full_house < Global_latest_timestamp (mkEnv 0%N 1)
           < endsAt full_house
      /\ 1 <= 1 <= noOfOptions full_house
      /\ Txn_sender (mkEnv 0%N 1) ∈ optedIn full_house
      /\ localState full_house !! Txn_sender (mkEnv 0%N 1) = None
      /\ option1Votes full_house = UInt64_MAX
      /\ vote (mkEnv 0%N 1) 1 full_house = Err Overflow).
Proof.
  split.
  - split; [apply reachable_at_init, is_uint64_0|].
    split; reflexivity.
  - unfold full_house.
    destruct (crowd_shape (Z.to_nat UInt64_MAX))
      as (Hsa & Hea & Hno & Hvs & Hv1 & H0 & Hfresh).
    { rewrite full_house_size. lia. }
    rewrite full_house_size in Hv1.
    assert (localState (crowd (Z.to_nat UInt64_MAX)) !! 0%N = None) as Hnone
      by (apply Hfresh; left; reflexivity).
    cbn [Txn_sender Global_latest_timestamp].
    split; [apply crowd_reachable_at|].
    split; [exact Hvs|].
    split; [rewrite Hsa, Hea; lia|].
    split; [rewrite Hno; lia|].
    split; [exact H0|].
    split; [exact Hnone|].
    split; [exact Hv1|].
    rewrite vote_unfold. cbn [Txn_sender Global_latest_timestamp].
    unfold Account in *. rewrite Hsa, Hea, Hno, Hnone, Hv1.
    destruct (decide _); [|contradiction].
    reflexivity.
Qed.

(** ** Scenarios B and C of the specification *)

(** Scenario B: an account that never opted in calls [vote] on a poll with
    three options; the call is rejected at the local-state access. *)
Example scenarioB_not_opted_in :
  let s := run (mkEnv 1%N 1000) (CreateVote "Poll" "" 3 "a" "b" "c" "" 1100)
             __init__ in
  vote (mkEnv 8%N 1050) 2 s = Err NotOptedIn
  /\ run (mkEnv 8%N 1050) (Vote 2) s = s.
Proof. vm_compute. split; reflexivity. Qed.

(** Scenario C: a deadline in the past is rejected with the status left at
    NotCreated, and a later call with a deadline in the future succeeds. *)
Example scenarioC_invalid_deadline :
  create_vote (mkEnv 1%N 1000) "Poll" "" 2 "Yes" "No" "" "" 999 __init__
    = Err InvalidDeadline
  /\ vote_status
       (run (mkEnv 1%N 1000) (CreateVote "Poll" "" 2 "Yes" "No" "" "" 999)
          __init__) = 0
  /\ create_vote (mkEnv 1%N 1001) "Poll" "" 2 "Yes" "No" "" "" 1100
       (run (mkEnv 1%N 1000) (CreateVote "Poll" "" 2 "Yes" "No" "" "" 999)
          __init__)
     = Ok (tt, run (mkEnv 1%N 1001)
                 (CreateVote "Poll" "" 2 "Yes" "No" "" "" 1100) __init__).
Proof. vm_compute. repeat split; reflexivity. Qed.

(** * Further properties of the contract *)

(** ** Outcomes of [create_vote] and [vote] on any state *)

Lemma state_ext s s' :
  title s = title s' -> description s = description s' ->
  noOfOptions s = noOfOptions s' ->
  option1 s = option1 s' -> option2 s = option2 s' ->
  option3 s = option3 s' -> option4 s = option4 s' ->
  option1Votes s = option1Votes s' -> option2Votes s = option2Votes s' ->
  option3Votes s = option3Votes s' -> option4Votes s = option4Votes s' ->
  startsAt s = startsAt s' -> endsAt s = endsAt s' ->
  vote_status s = vote_status s' ->
  optedIn s = optedIn s' -> localState s = localState s' ->
  s = s'.
Proof. destruct s, s'; simpl; intros; subst; reflexivity. Qed.

(** Settles one line of an outcome table once the handler is evaluated. *)
Ltac outcome_case :=
  match goal with
  | |- (exists _, _) <-> _ =>
      split;
      [ intros [? Hx]; first [discriminate Hx | repeat split; assumption]
      | intros (? & ? & ?); first [solve [eauto] | lia | congruence] ]
  | |- _ <-> _ =>
      split; intros Hx;
      first [ discriminate Hx | reflexivity | lia | congruence
            | repeat split; first [assumption | lia] ]
  | |- forall _, _ =>
      intros err Hx; first [discriminate Hx | injection Hx as <-; tauto]
  end.

(** X1.  [create_vote] checks the status first, the option count second and
    the deadline last: it is accepted exactly when the status is 0, the
    option count is in [2, 4] and the deadline is after the current time;
    it reports [AlreadyCreated] exactly when the status is not 0,
    [InvalidOptionCount] exactly when the status is 0 and the count is out of
    range, whatever the deadline, and [InvalidDeadline] exactly when only the
    deadline is wrong.  It reports no other error. *)
Theorem create_vote_outcome env t d n o1 o2 o3 o4 e s :
  ((exists s', create_vote env t d n o1 o2 o3 o4 e s = Ok (tt, s'))
     <-> vote_status s = 0 /\ 2 <= n <= 4 /\ Global_latest_timestamp env < e)
  /\ (create_vote env t d n o1 o2 o3 o4 e s = Err AlreadyCreated
        <-> vote_status s <> 0)
  /\ (create_vote env t d n o1 o2 o3 o4 e s = Err InvalidOptionCount
        <-> vote_status s = 0 /\ ~ 2 <= n <= 4)
  /\ (create_vote env t d n o1 o2 o3 o4 e s = Err InvalidDeadline
        <-> vote_status s = 0 /\ 2 <= n <= 4 /\ e <= Global_latest_timestamp env)
  /\ (forall err, create_vote env t d n o1 o2 o3 o4 e s = Err err ->
        err = AlreadyCreated \/ err = InvalidOptionCount
        \/ err = InvalidDeadline).
Proof.
  rewrite create_vote_unfold.
  destruct (Z.eqb_spec (vote_status s) 0) as [H0|H0];
    [destruct (Z.geb_spec n 2); destruct (Z.leb_spec n 4); simpl;
     [destruct (Z.ltb_spec (Global_latest_timestamp env) e)|..]|];
    (split; [|split; [|split; [|split]]]); outcome_case.
Qed.

Lemma vote_ok_conditions env o s :
  (exists s', vote env o s = Ok (tt, s')) <-> vote_accepted_when env o s.
Proof.
  unfold vote_accepted_when. split.
  - intros [s' Hv].
    destruct (vote_cases env o s) as [[e He]|Hok]; [congruence|].
    destruct Hok as (He & Hs & Ho & Hin & Hnone & _ & _ & _ & _ & _ & _ & _
                     & _ & _ & _ & _ & _ & _ & _ & Ho4 & Hfit & _).
    repeat split; first [assumption | lia].
  - intros ([Hs He] & [Ho1 Ho2] & Ho4 & Hin & Hnone & Hfit).
    rewrite vote_unfold.
    destruct (Z.ltb_spec (Global_latest_timestamp env) (endsAt s)); [|lia].
    destruct (Z.gtb_spec (Global_latest_timestamp env) (startsAt s)); [|lia].
    destruct (Z.geb_spec o 1); [|lia].
    destruct (Z.leb_spec o (noOfOptions s)); [|lia].
    destruct (decide _); [|contradiction].
    rewrite Hnone. simpl. unfold tally in Hfit.
    destruct (Z.eqb_spec o 1);
      [destruct (Z.leb_spec (option1Votes s + 1) UInt64_MAX); [eauto|lia]|].
    destruct (Z.eqb_spec o 2);
      [destruct (Z.leb_spec (option2Votes s + 1) UInt64_MAX); [eauto|lia]|].
    destruct (Z.eqb_spec o 3);
      [destruct (Z.leb_spec (option3Votes s + 1) UInt64_MAX); [eauto|lia]|].
    destruct (Z.eqb_spec o 4);
      [destruct (Z.leb_spec (option4Votes s + 1) UInt64_MAX); [eauto|lia]|].
    lia.
Qed.

(** X2.  On any state, [vote] is accepted exactly when the call is strictly
    inside the window, the option is in [1, noOfOptions] and at most 4, the
    caller has storage and no key, and the chosen tally is below the largest
    UInt64. *)
Theorem vote_accepted_iff env o s :
  (exists s', vote env o s = Ok (tt, s')) <->
  (startsAt s < Global_latest_timestamp env < endsAt s
   /\ 1 <= o <= noOfOptions s
   /\ o <= 4
   /\ Txn_sender env ∈ optedIn s
   /\ localState s !! Txn_sender env = None
   /\ tally o s < UInt64_MAX).
Proof. exact (vote_ok_conditions env o s). Qed.



(** ** The recorded choices *)

(** To keep a property over a transaction it is enough to keep it over a
    successful creation, a successful vote and an opt-in. *)
Lemma run_preserves (P : State -> Prop) env c s :
  P s ->
  (forall t d n o1 o2 o3 o4 e,
     vote_status s = 0 -> 2 <= n <= 4 -> Global_latest_timestamp env < e ->
     P (mkState t d n o1 o2 o3 o4 0 0 0 0 (Global_latest_timestamp env) e 1
          (optedIn s) (localState s))) ->
  (forall o s', vote env o s = Ok (tt, s') -> P s') ->
  P (set_optedIn ({[Txn_sender env]} ∪ optedIn s) s) ->
  P (run env c s).
Proof.
  intros Hs Hcreate Hvote Hopt. unfold run.
  destruct c as [t d n o1 o2 o3 o4 e|o|]; cbn [dispatch].
  - destruct (create_vote env t d n o1 o2 o3 o4 e s) as [[[] s']|err] eqn:Hc;
      [|exact Hs].
    apply create_vote_ok_inv in Hc as (H0 & Hn & Hlt & ->).
    apply Hcreate; assumption.
  - destruct (vote env o s) as [[[] s']|err] eqn:Hv; [|exact Hs].
    apply (Hvote o s' Hv).
  - exact Hopt.
Qed.

Lemma votes_for_empty k s : localState s = ∅ -> votes_for k s = 0%nat.
Proof.
  intros Hempty. unfold votes_for.
  rewrite Hempty, map_filter_empty. apply map_size_empty.
Qed.

Lemma votes_for_insert k a o (m : gmap Account Z) :
  m !! a = None ->
  size (filter (fun kv : Account * Z => kv.2 = k) (<[a := o]> m))
  = if decide (o = k)
    then S (size (filter (fun kv : Account * Z => kv.2 = k) m))
    else size (filter (fun kv : Account * Z => kv.2 = k) m).
Proof.
  intros Hnone. destruct (decide (o = k)) as [Heq|Hne].
  - rewrite map_filter_insert_True by exact Heq.
    apply map_size_insert_None, map_lookup_filter_None_2. left. exact Hnone.
  - rewrite map_filter_insert_False by exact Hne.
    rewrite delete_id by exact Hnone. reflexivity.
Qed.

Lemma tally_bound_fields s :
  option1Votes s <= UInt64_MAX -> option2Votes s <= UInt64_MAX ->
  option3Votes s <= UInt64_MAX -> option4Votes s <= UInt64_MAX ->
  forall k, tally k s <= UInt64_MAX.
Proof.
  intros H1 H2 H3 H4 k. unfold tally.
  repeat (destruct (_ =? _); [assumption|]). unfold UInt64_MAX. lia.
Qed.

Lemma ballot_invariant_init : ballot_invariant __init__.
Proof.
  split.
  - intros k Hk. rewrite votes_for_empty by reflexivity.
    unfold tally; simpl. repeat (destruct (_ =? _); [reflexivity|]). reflexivity.
  - intros a v Hv. simpl in Hv. rewrite lookup_empty in Hv. discriminate.
  - apply tally_bound_fields; simpl; unfold UInt64_MAX; lia.
  - reflexivity.
Qed.

Lemma run_ballot_invariant env c s :
  invariant s -> ballot_invariant s -> ballot_invariant (run env c s).
Proof.
  intros [Hst _ _] Hb. apply run_preserves.
  - exact Hb.
  - intros t d n o1 o2 o3 o4 e H0 Hn Hlt.
    destruct Hst as [[_ (_ & _ & _ & _ & Hempty)]|[H1 _]]; [|lia].
    split; simpl.
    + intros k Hk. rewrite votes_for_empty by exact Hempty.
      unfold tally; simpl. repeat (destruct (_ =? _); [reflexivity|]). reflexivity.
    + intros a v Hv. rewrite Hempty, lookup_empty in Hv. discriminate.
    + apply tally_bound_fields; simpl; unfold UInt64_MAX; lia.
    + discriminate.
  - intros o s' Hv. destruct Hb as [Hcount Hrange Hbound Hfresh].
    destruct (vote_cases env o s) as [[e He]|Hok]; [congruence|].
    destruct Hok as (_ & _ & Ho & _ & Hnone & s1 & Hs1 & Hloc & _ & Ht & Hd
                     & Hn & H1 & H2 & H3 & H4 & Hsa & Hea & Hvs & Ho4 & Hfit
                     & Hk).
    assert (s1 = s') as -> by congruence.
    split.
    + intros k Hkr. rewrite Hk. unfold votes_for. rewrite Hloc.
      rewrite votes_for_insert by exact Hnone.
      fold (votes_for k s). rewrite (Hcount k Hkr).
      destruct (Z.eqb_spec k o); destruct (decide (o = k)); lia.
    + intros a v. rewrite Hloc, Hn. intros Hkey.
      apply lookup_insert_Some in Hkey as [[_ <-]|[_ Hkey]]; [exact Ho|].
      apply (Hrange a v Hkey).
    + intros k. rewrite Hk. destruct (Z.eqb_spec k o) as [->|_];
        [lia|apply Hbound].
    + intros H0. rewrite Hvs in H0.
      rewrite <- (Hfresh H0). unfold metadata. congruence.
  - destruct Hb as [Hcount Hrange Hbound Hfresh]. split; assumption.
Qed.

Lemma reachable_ballot_invariant s : reachable s -> ballot_invariant s.
Proof.
  induction 1 as [|env c s Hr IH].
  - exact ballot_invariant_init.
  - apply run_ballot_invariant; [apply reachable_invariant, Hr|exact IH].
Qed.

Lemma votes_for_none k s :
  (forall a v, localState s !! a = Some v -> v <> k) -> votes_for k s = 0%nat.
Proof.
  intros Hne. unfold votes_for. apply map_size_empty_iff, map_empty.
  intros a. apply map_lookup_filter_None_2. right.
  intros v Hv. simpl. apply (Hne a v Hv).
Qed.

(** X4.  In every reachable state each tally is the number of accounts whose
    recorded choice is that option. *)
Theorem tally_counts_choices s :
  reachable s ->
  option1Votes s = Z.of_nat (votes_for 1 s)
  /\ option2Votes s = Z.of_nat (votes_for 2 s)
  /\ option3Votes s = Z.of_nat (votes_for 3 s)
  /\ option4Votes s = Z.of_nat (votes_for 4 s).
Proof.
  intros Hr. destruct (reachable_ballot_invariant s Hr) as [Hcount _ _ _].
  repeat split.
  - apply (Hcount 1). lia.
  - apply (Hcount 2). lia.
  - apply (Hcount 3). lia.
  - apply (Hcount 4). lia.
Qed.

Lemma tally_counts_choices_witness :
  reachable scenarioA_voted
  /\ option1Votes scenarioA_voted = Z.of_nat (votes_for 1 scenarioA_voted)
  /\ option2Votes scenarioA_voted = Z.of_nat (votes_for 2 scenarioA_voted)
  /\ option3Votes scenarioA_voted = Z.of_nat (votes_for 3 scenarioA_voted)
  /\ option4Votes scenarioA_voted = Z.of_nat (votes_for 4 scenarioA_voted).
Proof.
  split; [exact scenarioA_reachable|].
  apply (tally_counts_choices scenarioA_voted scenarioA_reachable).
Defined.

(** X5.  In every reachable state a local-state key belongs to an opted-in
    account of a created poll and holds one of that poll's options. *)
Theorem recorded_choice_valid s a v :
  reachable s ->
  localState s !! a = Some v ->
  a ∈ optedIn s /\ vote_status s = 1
  /\ 1 <= v <= noOfOptions s /\ noOfOptions s <= 4.
Proof.
  intros Hr Hv.
  destruct (reachable_invariant s Hr) as [Hst _ Hdom].
  destruct (reachable_ballot_invariant s Hr) as [_ Hrange _ _].
  assert (Hv1 := Hrange a v Hv).
  split; [apply Hdom, elem_of_dom; eauto|].
  destruct Hst as [[_ (Hn & _)]|[H1 [Hn _]]]; [lia|].
  repeat split; first [assumption | lia].
Qed.

Lemma recorded_choice_valid_witness :
  reachable scenarioA_voted
  /\ localState scenarioA_voted !! X = Some 1
  /\ X ∈ optedIn scenarioA_voted /\ vote_status scenarioA_voted = 1
  /\ 1 <= 1 <= noOfOptions scenarioA_voted /\ noOfOptions scenarioA_voted <= 4.
Proof.
  assert (localState scenarioA_voted !! X = Some 1) as Hv
    by (vm_compute; reflexivity).
  split; [exact scenarioA_reachable|]. split; [exact Hv|].
  apply (recorded_choice_valid scenarioA_voted X 1 scenarioA_reachable Hv).
Defined.

(** X6.  In every reachable state the tally of an option beyond the option
    count is zero; before creation, when the count is 0, all four are. *)
Theorem unused_tallies_zero s :
  reachable s ->
  (noOfOptions s < 1 -> option1Votes s = 0)
  /\ (noOfOptions s < 2 -> option2Votes s = 0)
  /\ (noOfOptions s < 3 -> option3Votes s = 0)
  /\ (noOfOptions s < 4 -> option4Votes s = 0).
Proof.
  intros Hr. destruct (reachable_ballot_invariant s Hr) as [Hcount Hrange _ _].
  assert (forall k, 1 <= k <= 4 -> noOfOptions s < k -> tally k s = 0) as Hz.
  { intros k Hk Hlt. rewrite (Hcount k Hk), votes_for_none; [reflexivity|].
    intros a v Hv. assert (Hv1 := Hrange a v Hv). lia. }
  repeat split; intros Hlt.
  - apply (Hz 1); lia.
  - apply (Hz 2); lia.
  - apply (Hz 3); lia.
  - apply (Hz 4); lia.
Qed.

Lemma unused_tallies_zero_witness :
  reachable scenarioA_voted
  /\ noOfOptions scenarioA_voted < 3
  /\ option3Votes scenarioA_voted = 0
  /\ option4Votes scenarioA_voted = 0.
Proof.
  assert (noOfOptions scenarioA_voted < 3) as H3 by (vm_compute; reflexivity).
  destruct (unused_tallies_zero scenarioA_voted scenarioA_reachable)
    as (_ & _ & Hz3 & Hz4).
  split; [exact scenarioA_reachable|]. split; [exact H3|].
  split; [apply Hz3; exact H3|apply Hz4; lia].
Defined.

(** X7.  In every reachable state the four tallies are UInt64 values. *)
Theorem tallies_are_uint64 s :
  reachable s ->
  is_uint64 (option1Votes s) /\ is_uint64 (option2Votes s)
  /\ is_uint64 (option3Votes s) /\ is_uint64 (option4Votes s).
Proof.
  intros Hr. destruct (reachable_ballot_invariant s Hr) as [Hcount _ Hbound _].
  assert (forall k, 1 <= k <= 4 -> is_uint64 (tally k s)) as Hk.
  { intros k Hk. split; [rewrite (Hcount k Hk); lia|apply Hbound]. }
  repeat split; first [apply (Hk 1) | apply (Hk 2) | apply (Hk 3) | apply (Hk 4)];
    lia.
Qed.

Lemma tallies_are_uint64_witness :
  reachable scenarioA_voted
  /\ is_uint64 (option1Votes scenarioA_voted)
  /\ is_uint64 (option2Votes scenarioA_voted)
  /\ is_uint64 (option3Votes scenarioA_voted)
  /\ is_uint64 (option4Votes scenarioA_voted).
Proof.
  split; [exact scenarioA_reachable|].
  apply (tallies_are_uint64 scenarioA_voted scenarioA_reachable).
Defined.

(** X8.  In every reachable state the number of votes counted is at most the
    number of accounts that have opted in. *)
Theorem votes_at_most_opted_in s :
  reachable s ->
  option1Votes s + option2Votes s + option3Votes s + option4Votes s
    <= Z.of_nat (size (optedIn s)).
Proof.
  intros Hr. destruct (reachable_invariant s Hr) as [_ Hsum Hdom].
  unfold sum_tallies, voters in Hsum. rewrite Hsum.
  apply Nat2Z.inj_le. rewrite <- size_dom. apply subseteq_size, Hdom.
Qed.

Lemma votes_at_most_opted_in_witness :
  reachable scenarioA_voted
  /\ option1Votes scenarioA_voted + option2Votes scenarioA_voted
     + option3Votes scenarioA_voted + option4Votes scenarioA_voted
     <= Z.of_nat (size (optedIn scenarioA_voted)).
Proof.
  split; [exact scenarioA_reachable|].
  apply (votes_at_most_opted_in scenarioA_voted scenarioA_reachable).
Defined.

Lemma reachable_not_created s :
  reachable s ->
  vote_status s = 0 ->
  localState s = ∅ /\ metadata s = metadata __init__
  /\ option1Votes s = 0 /\ option2Votes s = 0
  /\ option3Votes s = 0 /\ option4Votes s = 0.
Proof.
  intros Hr H0.
  destruct (reachable_invariant s Hr) as [Hst _ _].
  destruct (reachable_ballot_invariant s Hr) as [Hcount _ _ Hfresh].
  destruct Hst as [[_ (_ & _ & _ & _ & Hempty)]|[H1 _]]; [|lia].
  assert (forall k, 1 <= k <= 4 -> tally k s = 0) as Hz.
  { intros k Hk. rewrite (Hcount k Hk), votes_for_empty by exact Hempty.
    reflexivity. }
  split; [exact Hempty|]. split; [exact (Hfresh H0)|].
  repeat split.
  - apply (Hz 1); lia.
  - apply (Hz 2); lia.
  - apply (Hz 3); lia.
  - apply (Hz 4); lia.
Qed.

(** X9.  Until a [create_vote] call is accepted the contract is as deployed
    except for the set of opted-in accounts: rejected creations and votes
    leave nothing behind. *)
Theorem pristine_before_creation s :
  reachable s ->
  vote_status s = 0 ->
  s = set_optedIn (optedIn s) __init__.
Proof.
  intros Hr H0.
  destruct (reachable_not_created s Hr H0)
    as (Hempty & Hm & Hv1 & Hv2 & Hv3 & Hv4).
  unfold metadata in Hm; simpl in Hm.
  injection Hm as Ht Hd Hn Ho1 Ho2 Ho3 Ho4 Hsa Hea Hvs.
  apply state_ext; simpl; first [assumption | reflexivity].
Qed.

Lemma pristine_before_creation_witness :
  reachable (run (mkEnv X 5) OptIn __init__)
  /\ vote_status (run (mkEnv X 5) OptIn __init__) = 0
  /\ run (mkEnv X 5) OptIn __init__
     = set_optedIn (optedIn (run (mkEnv X 5) OptIn __init__)) __init__.
Proof.
  assert (reachable (run (mkEnv X 5) OptIn __init__)) as Hr
    by (apply reachable_step, reachable_init).
  split; [exact Hr|]. split; [reflexivity|].
  apply (pristine_before_creation (run (mkEnv X 5) OptIn __init__) Hr).
  reflexivity.
Defined.

(** X10.  In every reachable state the status is 0 or 1, and once it is 1
    the option count is in [2, 4] and the window is not empty. *)
Theorem option_count_in_range s :
  reachable s ->
  (vote_status s = 0 \/ vote_status s = 1)
  /\ (vote_status s = 1 -> 2 <= noOfOptions s <= 4 /\ startsAt s < endsAt s).
Proof.
  intros Hr. destruct (reachable_invariant s Hr) as [Hst _ _].
  destruct Hst as [[H0 _]|[H1 [Hn Hw]]].
  - split; [left; exact H0|lia].
  - split; [right; exact H1|]. intros _. split; assumption.
Qed.

Lemma option_count_in_range_witness :
  reachable scenarioA_voted
  /\ (vote_status scenarioA_voted = 0 \/ vote_status scenarioA_voted = 1)
  /\ 2 <= noOfOptions scenarioA_voted <= 4
  /\ startsAt scenarioA_voted < endsAt scenarioA_voted.
Proof.
  destruct (option_count_in_range scenarioA_voted scenarioA_reachable)
    as [Hst Hact].
  split; [exact scenarioA_reachable|]. split; [exact Hst|].
  apply Hact. reflexivity.
Defined.

(** ** What later calls cannot undo *)

(** X11.  A recorded choice is final: from a reachable state on, a key keeps
    its value through every later call. *)
Theorem recorded_choice_kept s s' a v :
  reachable s ->
  localState s !! a = Some v ->
  steps s s' ->
  localState s' !! a = Some v.
Proof.
  intros Hr Hv Hsteps. destruct (reachable_invariant s Hr) as [_ _ Hdom].
  assert (a ∈ optedIn s) as Hin by (apply Hdom, elem_of_dom; eauto).
  apply (steps_keeps_record s s' a v Hin Hv Hsteps).
Qed.

Lemma recorded_choice_kept_witness :
  reachable scenarioA_voted
  /\ localState scenarioA_voted !! X = Some 1
  /\ steps scenarioA_voted (run (mkEnv X 1060) (Vote 2) scenarioA_voted)
  /\ localState (run (mkEnv X 1060) (Vote 2) scenarioA_voted) !! X = Some 1.
Proof.
  assert (localState scenarioA_voted !! X = Some 1) as Hv
    by (vm_compute; reflexivity).
  assert (steps scenarioA_voted (run (mkEnv X 1060) (Vote 2) scenarioA_voted))
    as Hsteps by (apply steps_step, steps_refl).
  split; [exact scenarioA_reachable|]. split; [exact Hv|].
  split; [exact Hsteps|].
  apply (recorded_choice_kept scenarioA_voted _ X 1 scenarioA_reachable Hv
           Hsteps).
Defined.

Lemma run_never_decreases env c s :
  reachable s ->
  option1Votes s <= option1Votes (run env c s)
  /\ option2Votes s <= option2Votes (run env c s)
  /\ option3Votes s <= option3Votes (run env c s)
  /\ option4Votes s <= option4Votes (run env c s)
  /\ optedIn s ⊆ optedIn (run env c s).
Proof.
  intros Hr.
  apply (run_preserves
           (fun x => option1Votes s <= option1Votes x
                     /\ option2Votes s <= option2Votes x
                     /\ option3Votes s <= option3Votes x
                     /\ option4Votes s <= option4Votes x
                     /\ optedIn s ⊆ optedIn x)).
  - repeat split; first [lia | reflexivity].
  - intros t d n o1 o2 o3 o4 e H0 _ _.
    destruct (reachable_not_created s Hr H0) as (_ & _ & H1 & H2 & H3 & H4).
    simpl. repeat split; first [lia | reflexivity].
  - intros o s' Hv.
    destruct (vote_cases env o s) as [[e He]|Hok]; [congruence|].
    destruct Hok as (_ & _ & _ & _ & _ & s1 & Hs1 & _ & Hopt & _ & _ & _
                     & _ & _ & _ & _ & _ & _ & _ & _ & _ & Hk).
    assert (s1 = s') as -> by congruence.
    assert (option1Votes s' = if 1 =? o then option1Votes s + 1
                             else option1Votes s) as Hk1 by exact (Hk 1).
    assert (option2Votes s' = if 2 =? o then option2Votes s + 1
                             else option2Votes s) as Hk2 by exact (Hk 2).
    assert (option3Votes s' = if 3 =? o then option3Votes s + 1
                             else option3Votes s) as Hk3 by exact (Hk 3).
    assert (option4Votes s' = if 4 =? o then option4Votes s + 1
                             else option4Votes s) as Hk4 by exact (Hk 4).
    rewrite Hopt, Hk1, Hk2, Hk3, Hk4.
    destruct (1 =? o), (2 =? o), (3 =? o), (4 =? o);
      repeat split; first [lia | reflexivity].
  - simpl. repeat split; try lia. apply union_subseteq_r.
Qed.

(** X12.  Nothing is taken back: from a reachable state on, no later call
    lowers a tally, removes an account from the opted-in set or lowers the
    number of recorded choices. *)
Theorem nothing_taken_back s s' :
  reachable s ->
  steps s s' ->
  option1Votes s <= option1Votes s'
  /\ option2Votes s <= option2Votes s'
  /\ option3Votes s <= option3Votes s'
  /\ option4Votes s <= option4Votes s'
  /\ optedIn s ⊆ optedIn s'
  /\ (size (localState s) <= size (localState s'))%nat.
Proof.
  intros Hr Hsteps.
  assert (option1Votes s <= option1Votes s'
          /\ option2Votes s <= option2Votes s'
          /\ option3Votes s <= option3Votes s'
          /\ option4Votes s <= option4Votes s'
          /\ optedIn s ⊆ optedIn s') as Hmono.
  { induction Hsteps as [|env c s' Hsteps IH].
    - repeat split; first [lia | reflexivity].
    - destruct (run_never_decreases env c s' (steps_reachable s s' Hr Hsteps))
        as (H1 & H2 & H3 & H4 & Hopt).
      destruct IH as (I1 & I2 & I3 & I4 & Iopt).
      repeat split; try lia. etrans; eassumption. }
  destruct Hmono as (H1 & H2 & H3 & H4 & Hopt).
  repeat split; try assumption.
  assert (Hr' := steps_reachable s s' Hr Hsteps).
  destruct (reachable_invariant s Hr) as [_ Hsum _].
  destruct (reachable_invariant s' Hr') as [_ Hsum' _].
  unfold sum_tallies, voters in Hsum, Hsum'. lia.
Qed.

Lemma nothing_taken_back_witness :
  reachable scenarioA_created
  /\ steps scenarioA_created scenarioA_voted
  /\ option1Votes scenarioA_created <= option1Votes scenarioA_voted
  /\ option2Votes scenarioA_created <= option2Votes scenarioA_voted
  /\ option3Votes scenarioA_created <= option3Votes scenarioA_voted
  /\ option4Votes scenarioA_created <= option4Votes scenarioA_voted
  /\ optedIn scenarioA_created ⊆ optedIn scenarioA_voted
  /\ (size (localState scenarioA_created)
      <= size (localState scenarioA_voted))%nat.
Proof.
  assert (reachable scenarioA_created) as Hr
    by (apply reachable_step, reachable_init).
  assert (steps scenarioA_created scenarioA_voted) as Hsteps.
  { unfold scenarioA_voted, scenarioA_opted.
    do 2 apply steps_step. apply steps_refl. }
  split; [exact Hr|]. split; [exact Hsteps|].
  apply (nothing_taken_back scenarioA_created scenarioA_voted Hr Hsteps).
Defined.

(** X13.  Once the deadline of a created poll has passed the result is
    final: calls made at [endsAt] or later change nothing but the set of
    opted-in accounts, which can only grow. *)
Theorem closed_poll_frozen t0 s s' :
  vote_status s = 1 ->
  endsAt s <= t0 ->
  steps_from t0 s s' ->
  s' = set_optedIn (optedIn s') s /\ optedIn s ⊆ optedIn s'.
Proof.
  intros Hact Hend. induction 1 as [|env c s' Hsteps [IHeq IHopt] Hnow].
  - split; [destruct s; reflexivity|reflexivity].
  - apply (run_preserves
             (fun x => x = set_optedIn (optedIn x) s /\ optedIn s ⊆ optedIn x)).
    + split; assumption.
    + intros t d n o1 o2 o3 o4 e H0 _ _.
      rewrite IHeq in H0. simpl in H0. lia.
    + intros o x Hv.
      destruct (proj1 (vote_ok_conditions env o s') (ex_intro _ x Hv))
        as ([_ Hlt] & _).
      rewrite IHeq in Hlt. simpl in Hlt. lia.
    + split.
      * rewrite IHeq. reflexivity.
      * simpl. etrans; [exact IHopt|]. apply union_subseteq_r.
Qed.

Lemma closed_poll_frozen_witness :
  vote_status scenarioA_voted = 1
  /\ endsAt scenarioA_voted <= 1100
  /\ steps_from 1100 scenarioA_voted
       (run (mkEnv 9%N 1100) (Vote 2) (run (mkEnv 9%N 1100) OptIn scenarioA_voted))
  /\ run (mkEnv 9%N 1100) (Vote 2) (run (mkEnv 9%N 1100) OptIn scenarioA_voted)
     = set_optedIn
         (optedIn (run (mkEnv 9%N 1100) (Vote 2)
                     (run (mkEnv 9%N 1100) OptIn scenarioA_voted)))
         scenarioA_voted
  /\ optedIn scenarioA_voted
     ⊆ optedIn (run (mkEnv 9%N 1100) (Vote 2)
                  (run (mkEnv 9%N 1100) OptIn scenarioA_voted)).
Proof.
  assert (steps_from 1100 scenarioA_voted
            (run (mkEnv 9%N 1100) (Vote 2)
               (run (mkEnv 9%N 1100) OptIn scenarioA_voted))) as Hsteps.
  { apply steps_from_step; [apply steps_from_step; [apply steps_from_refl|]|];
      simpl; lia. }
  split; [reflexivity|]. split; [vm_compute; discriminate|].
  split; [exact Hsteps|].
  apply (closed_poll_frozen 1100 scenarioA_voted _ eq_refl); [|exact Hsteps].
  vm_compute. discriminate.
Defined.

(** ** How calls compose *)

Lemma vote_ok_result env o s s' :
  vote env o s = Ok (tt, s') -> s' = voted env o s.
Proof.
  rewrite vote_unfold.
  destruct (_ <? _); [|discriminate].
  destruct (_ >? _); [|discriminate].
  destruct (_ && _); [|discriminate].
  destruct (decide _); [|discriminate].
  destruct (localState s !! Txn_sender env); [discriminate|].
  destruct (Z.eqb_spec o 1) as [-> | ];
    [destruct (_ <=? _); [|discriminate]; intros [= <-];
     unfold voted, recorded; destruct s; simpl; rewrite ?Z.add_0_r; reflexivity|].
  destruct (Z.eqb_spec o 2) as [-> | ];
    [destruct (_ <=? _); [|discriminate]; intros [= <-];
     unfold voted, recorded; destruct s; simpl; rewrite ?Z.add_0_r; reflexivity|].
  destruct (Z.eqb_spec o 3) as [-> | ];
    [destruct (_ <=? _); [|discriminate]; intros [= <-];
     unfold voted, recorded; destruct s; simpl; rewrite ?Z.add_0_r; reflexivity|].
  destruct (Z.eqb_spec o 4) as [-> | ];
    [destruct (_ <=? _); [|discriminate]; intros [= <-];
     unfold voted, recorded; destruct s; simpl; rewrite ?Z.add_0_r; reflexivity|].
  discriminate.
Qed.

Lemma tally_voted k env o s :
  1 <= k <= 4 ->
  tally k (voted env o s) = tally k s + (if o =? k then 1 else 0).
Proof.
  intros Hk. unfold tally; simpl.
  destruct (Z.eqb_spec k 1) as [-> | ]; [reflexivity|].
  destruct (Z.eqb_spec k 2) as [-> | ]; [reflexivity|].
  destruct (Z.eqb_spec k 3) as [-> | ]; [reflexivity|].
  destruct (Z.eqb_spec k 4) as [-> | ]; [reflexivity|].
  lia.
Qed.

Lemma voted_commute ea oa eb ob s :
  Txn_sender ea <> Txn_sender eb ->
  voted ea oa (voted eb ob s) = voted eb ob (voted ea oa s).
Proof.
  intros Hne. unfold voted; simpl. f_equal; try lia.
  apply insert_insert_ne, Hne.
Qed.

(** X14.  The order in which two different accounts vote does not matter:
    if one vote and then the other are both accepted, they are accepted in
    the other order too and lead to the same state. *)
Theorem votes_commute ea oa eb ob s s1 s2 :
  Txn_sender ea <> Txn_sender eb ->
  vote ea oa s = Ok (tt, s1) ->
  vote eb ob s1 = Ok (tt, s2) ->
  exists s1', vote eb ob s = Ok (tt, s1') /\ vote ea oa s1' = Ok (tt, s2).
Proof.
  intros Hne Ha Hb.
  assert (Hs1 := vote_ok_result _ _ _ _ Ha).
  assert (Hs2 := vote_ok_result _ _ _ _ Hb). subst s1 s2.
  destruct (proj1 (vote_ok_conditions ea oa s) (ex_intro _ _ Ha))
    as (Hwa & Hoa & Hoa4 & Hina & Hnonea & Hfita).
  destruct (proj1 (vote_ok_conditions eb ob (voted ea oa s)) (ex_intro _ _ Hb))
    as (Hwb & Hob & Hob4 & Hinb & Hnoneb & Hfitb).
  simpl in Hwb, Hob, Hinb, Hnoneb.
  rewrite lookup_insert_ne in Hnoneb by exact Hne.
  rewrite tally_voted in Hfitb by lia.
  assert (exists s1', vote eb ob s = Ok (tt, s1')) as [s1' Hb'].
  { apply vote_ok_conditions. repeat split; try assumption; try lia.
    destruct (oa =? ob); lia. }
  assert (Hs1' := vote_ok_result _ _ _ _ Hb'). subst s1'.
  assert (exists s2', vote ea oa (voted eb ob s) = Ok (tt, s2')) as [s2' Ha'].
  { apply vote_ok_conditions. repeat split; simpl; try assumption; try lia.
    - rewrite lookup_insert_ne by congruence. exact Hnonea.
    - rewrite tally_voted by lia.
      destruct (Z.eqb_spec ob oa) as [-> | ]; [|lia].
      rewrite Z.eqb_refl in Hfitb. lia. }
  assert (Hs2' := vote_ok_result _ _ _ _ Ha'). subst s2'.
  exists (voted eb ob s). split; [exact Hb'|].
  rewrite Ha'. rewrite (voted_commute eb ob ea oa s) by congruence.
  reflexivity.
Qed.

Lemma votes_commute_witness :
  let s := run (mkEnv Y 1020) OptIn scenarioA_opted in
  Txn_sender (mkEnv X 1050) <> Txn_sender (mkEnv Y 1070)
  /\ vote (mkEnv X 1050) 1 s = Ok (tt, voted (mkEnv X 1050) 1 s)
  /\ vote (mkEnv Y 1070) 2 (voted (mkEnv X 1050) 1 s)
     = Ok (tt, voted (mkEnv Y 1070) 2 (voted (mkEnv X 1050) 1 s))
  /\ exists s1',
       vote (mkEnv Y 1070) 2 s = Ok (tt, s1')
       /\ vote (mkEnv X 1050) 1 s1'
          = Ok (tt, voted (mkEnv Y 1070) 2 (voted (mkEnv X 1050) 1 s)).
Proof.
  intros s.
  assert (Txn_sender (mkEnv X 1050) <> Txn_sender (mkEnv Y 1070)) as Hne
    by (vm_compute; discriminate).
  assert (vote (mkEnv X 1050) 1 s = Ok (tt, voted (mkEnv X 1050) 1 s)) as Ha
    by (vm_compute; reflexivity).
  assert (vote (mkEnv Y 1070) 2 (voted (mkEnv X 1050) 1 s)
          = Ok (tt, voted (mkEnv Y 1070) 2 (voted (mkEnv X 1050) 1 s))) as Hb
    by (vm_compute; reflexivity).
  split; [exact Hne|]. split; [exact Ha|]. split; [exact Hb|].
  apply (votes_commute (mkEnv X 1050) 1 (mkEnv Y 1070) 2 s _ _ Hne Ha Hb).
Defined.

(** X15.  Opting in is what lets an account vote: right after the account's
    [opt_in] call, its [vote] is accepted exactly when the call is strictly
    inside the window, the option is in [1, noOfOptions] and at most 4, the
    account has no key yet and the chosen tally is below the largest
    UInt64. *)
Theorem opt_in_enables_vote env env' o s :
  Txn_sender env' = Txn_sender env ->
  (exists s', vote env o (run env' OptIn s) = Ok (tt, s'))
  <-> (startsAt s < Global_latest_timestamp env < endsAt s
       /\ 1 <= o <= noOfOptions s
       /\ o <= 4
       /\ localState s !! Txn_sender env = None
       /\ tally o s < UInt64_MAX).
Proof.
  intros Hsender.
  assert (run env' OptIn s = set_optedIn ({[Txn_sender env]} ∪ optedIn s) s)
    as -> by (rewrite <- Hsender; reflexivity).
  rewrite vote_ok_conditions. unfold vote_accepted_when; simpl.
  assert (Txn_sender env ∈ {[Txn_sender env]} ∪ optedIn s) as Hin
    by (apply elem_of_union_l, elem_of_singleton; reflexivity).
  unfold tally; simpl. tauto.
Qed.

Lemma opt_in_enables_vote_witness :
  Txn_sender (mkEnv Y 1020) = Txn_sender (mkEnv Y 1070)
  /\ (startsAt scenarioA_voted < Global_latest_timestamp (mkEnv Y 1070)
        < endsAt scenarioA_voted
      /\ 1 <= 2 <= noOfOptions scenarioA_voted
      /\ 2 <= 4
      /\ localState scenarioA_voted !! Txn_sender (mkEnv Y 1070) = None
      /\ tally 2 scenarioA_voted < UInt64_MAX)
  /\ exists s', vote (mkEnv Y 1070) 2 (run (mkEnv Y 1020) OptIn scenarioA_voted)
                = Ok (tt, s').
Proof.
  assert (startsAt scenarioA_voted < Global_latest_timestamp (mkEnv Y 1070)
            < endsAt scenarioA_voted
          /\ 1 <= 2 <= noOfOptions scenarioA_voted
          /\ 2 <= 4
          /\ localState scenarioA_voted !! Txn_sender (mkEnv Y 1070) = None
          /\ tally 2 scenarioA_voted < UInt64_MAX) as Hcond.
  { vm_compute. repeat split; discriminate. }
  split; [reflexivity|]. split; [exact Hcond|].
  apply (opt_in_enables_vote (mkEnv Y 1070) (mkEnv Y 1020) 2 scenarioA_voted
           eq_refl).
  exact Hcond.
Defined.
